(** * Website scraper: a shallow embedding of [scraper.py]

    The development follows the structure of the Python module:

    - [Py]: the few operations on Python strings the scraper relies on
      (slicing, [lower], [strip], [split], [join], [in], decimal formatting);
    - [Dom]: the parse tree handed out by the HTML parser, with the queries
      the scraper performs on it ([select], [get_text(strip=True)], [get],
      [str(element)], [.parent]);
    - the section record and [_extract_section_from_element];
    - [_extract_sections], the segmentation into regions;
    - the browser session of the render path, as a state-and-exception monad
      over the scraper object's mutable fields, with the page as an oracle;
    - [scrape], the orchestration of both paths.

    A character is an [ascii] value and stands for one code point below 256;
    a Python [str] is a [string] of them. *)

From Stdlib Require Import Ascii String List ZArith Lia.
From Stdlib Require Import DecimalString DecimalNat.
From stdpp Require Import base tactics option list strings gmap.

Local Open Scope string_scope.
Local Open Scope list_scope.
Local Open Scope nat_scope.

(** ** Exceptions

    A Python call either returns a value or raises; [Raise e] carries
    [str(e)], the only part of an exception the scraper ever reads. *)

Inductive result (A : Type) : Type :=
| Ok (a : A)
| Raise (e : string).
Arguments Ok {A} a.
Arguments Raise {A} e.

#[global] Instance result_ret : MRet result := fun A a => Ok a.
#[global] Instance result_bind : MBind result := fun A B f m =>
  match m with
  | Ok a => f a
  | Raise e => Raise e
  end.

Definition raised {A} (r : result A) : bool :=
  match r with Ok _ => false | Raise _ => true end.

(** ** Python strings *)

Module Py.

(** [len(s)] *)
Definition len (s : string) : nat := String.length s.

(** [s[:n]] *)
Fixpoint take (n : nat) (s : string) : string :=
  match n, s with
  | S n', String c s' => String c (take n' s')
  | _, _ => EmptyString
  end.

(** Truth value of a string: [if s:]. *)
Definition truthy (s : string) : bool :=
  match s with EmptyString => false | String _ _ => true end.

(** [c.lower()] on code points below 256: the ASCII capitals, and the
    Latin-1 capitals U+00C0..U+00DE other than the multiplication sign. *)
Definition lower_char (c : ascii) : ascii :=
  let n := nat_of_ascii c in
  if ((65 <=? n) && (n <=? 90)) || ((192 <=? n) && (n <=? 222) && negb (n =? 215))
  then ascii_of_nat (n + 32) else c.

(** [s.lower()] *)
Fixpoint lower (s : string) : string :=
  match s with
  | EmptyString => EmptyString
  | String c s' => String (lower_char c) (lower s')
  end.

(** [s.startswith(p)] *)
Fixpoint startswith (p s : string) : bool :=
  match p, s with
  | EmptyString, _ => true
  | String a p', String b s' => if Ascii.eqb a b then startswith p' s' else false
  | String _ _, EmptyString => false
  end.

(** [needle in hay] *)
Fixpoint contains (needle hay : string) : bool :=
  startswith needle hay ||
  match hay with
  | EmptyString => false
  | String _ hay' => contains needle hay'
  end.

(** [c.isspace()] on code points below 256. *)
Definition is_space (c : ascii) : bool :=
  let n := nat_of_ascii c in
  ((9 <=? n) && (n <=? 13)) || ((28 <=? n) && (n <=? 32)) || (n =? 133) || (n =? 160).

Fixpoint lstrip (s : string) : string :=
  match s with
  | String c s' => if is_space c then lstrip s' else s
  | EmptyString => EmptyString
  end.

(** [s.rstrip()]: a trailing run of white space is dropped. *)
Fixpoint rstrip (s : string) : string :=
  match s with
  | EmptyString => EmptyString
  | String c s' =>
      match rstrip s' with
      | EmptyString => if is_space c then EmptyString else String c EmptyString
      | r => String c r
      end
  end.

(** [s.strip()] *)
Definition strip (s : string) : string := rstrip (lstrip s).

(** [s.split()]: the maximal runs of non-space characters.  [cur] is the
    word being read, in reverse. *)
Fixpoint split_from (cur : list ascii) (s : string) : list string :=
  let flush (rest : list string) :=
    match cur with
    | [] => rest
    | _ => string_of_list_ascii (rev cur) :: rest
    end in
  match s with
  | EmptyString => flush []
  | String c s' =>
      if is_space c then flush (split_from [] s') else split_from (c :: cur) s'
  end.

Definition split (s : string) : list string := split_from [] s.

(** [sep.join(parts)] *)
Fixpoint join (sep : string) (parts : list string) : string :=
  match parts with
  | [] => EmptyString
  | [p] => p
  | p :: rest => p +:+ sep +:+ join sep rest
  end.

(** [x in xs] for a list of strings. *)
Definition mem (x : string) (xs : list string) : bool :=
  existsb (String.eqb x) xs.

(** [any(noise in s for noise in words)] *)
Definition any_in (words : list string) (s : string) : bool :=
  existsb (fun noise => contains noise s) words.

(** [str(n)] for a non-negative integer. *)
Definition str_of_nat (n : nat) : string :=
  NilZero.string_of_uint (Nat.to_uint n).

End Py.

Arguments Py.take : simpl nomatch.
Arguments Py.contains : simpl nomatch.
Arguments Py.str_of_nat : simpl never.

(** ** The parse tree *)

Module Dom.

(** A [Tag] has a name, its attributes in source order and its contents;
    the other page elements are text (comments, doctypes and the like are
    left out of the tree).  The [BeautifulSoup] object at the root is
    itself a tag, named ["[document]"]. *)
Inductive Tag : Type :=
| mkTag (name : string) (attrs : list (string * string)) (contents : list PageElement)
with PageElement : Type :=
| NavigableString (s : string)
| Element (t : Tag).

Definition name (t : Tag) : string := let 'mkTag n _ _ := t in n.
Definition attrs (t : Tag) : list (string * string) := let 'mkTag _ a _ := t in a.
Definition contents (t : Tag) : list PageElement := let 'mkTag _ _ c := t in c.

(** [t.get(key)]: the value of the first attribute of that name. *)
Fixpoint lookup_attr (key : string) (l : list (string * string)) : option string :=
  match l with
  | [] => None
  | (k, v) :: l' => if String.eqb k key then Some v else lookup_attr key l'
  end.

Definition get (key : string) (t : Tag) : option string := lookup_attr key (attrs t).

(** [t.get("class", [])]: the parser stores [class] as the list of its
    white-space separated tokens. *)
Definition get_class (t : Tag) : list string :=
  match get "class" t with
  | Some v => Py.split v
  | None => []
  end.

(** Every tag below [t], each with its parent, in document order. *)
Fixpoint descendants_with_parent (t : Tag) : list (Tag * Tag) :=
  (fix go (l : list PageElement) : list (Tag * Tag) :=
     match l with
     | [] => []
     | NavigableString _ :: l' => go l'
     | Element c :: l' => (c, t) :: descendants_with_parent c ++ go l'
     end) (contents t).

Definition matches (names : list string) (c : Tag) : bool := Py.mem (name c) names.

(** [t.select("a, b, ...")] for a group of type selectors. *)
Definition select (names : list string) (t : Tag) : list Tag :=
  map fst (filter (fun cp => matches names (fst cp)) (descendants_with_parent t)).

(** [[h.parent for h in t.select(...)]] *)
Definition select_parents (names : list string) (t : Tag) : list Tag :=
  map snd (filter (fun cp => matches names (fst cp)) (descendants_with_parent t)).

(** [t.select_one(...)] *)
Definition select_one (names : list string) (t : Tag) : option Tag :=
  head (select names t).

(** The strings below [t], in document order. *)
Fixpoint strings (t : Tag) : list string :=
  (fix go (l : list PageElement) : list string :=
     match l with
     | [] => []
     | NavigableString s :: l' => s :: go l'
     | Element c :: l' => strings c ++ go l'
     end) (contents t).

(** [t.get_text(strip=True)]: every string stripped, the empty ones
    dropped, the rest concatenated. *)
Definition get_text_strip (t : Tag) : string :=
  Py.join "" (filter (fun s => Py.truthy s) (map Py.strip (strings t))).

(** Entity substitution of the default output formatter. *)
Fixpoint escape (s : string) : string :=
  match s with
  | EmptyString => EmptyString
  | String c s' =>
      (if Ascii.eqb c "&" then "&amp;"
       else if Ascii.eqb c "<" then "&lt;"
       else if Ascii.eqb c ">" then "&gt;"
       else String c EmptyString) +:+ escape s'
  end.

Definition void_elements : list string :=
  ["area"; "base"; "br"; "col"; "embed"; "hr"; "img"; "input"; "keygen";
   "link"; "menuitem"; "meta"; "param"; "source"; "track"; "wbr"].

Definition dquote : string := String "034"%char EmptyString.

Definition attr_markup (kv : string * string) : string :=
  let (k, v) := kv in
  " " +:+ k +:+ "=" +:+ dquote +:+
    escape (if String.eqb k "class" then Py.join " " (Py.split v) else v) +:+ dquote.

(** [str(t)]: the markup of the tag.  The document root prints its
    contents only; a void element without contents closes itself. *)
Fixpoint str (t : Tag) : string :=
  let inner :=
    (fix go (l : list PageElement) : string :=
       match l with
       | [] => EmptyString
       | NavigableString s :: l' => escape s +:+ go l'
       | Element c :: l' => str c +:+ go l'
       end) (contents t) in
  if String.eqb (name t) "[document]" then inner
  else
    let open := "<" +:+ name t +:+ Py.join "" (map attr_markup (attrs t)) in
    match contents t with
    | [] => if Py.mem (name t) void_elements then open +:+ "/>"
            else open +:+ "></" +:+ name t +:+ ">"
    | _ => open +:+ ">" +:+ inner +:+ "</" +:+ name t +:+ ">"
    end.

End Dom.

(** ** Sections *)

Record Link : Type := mkLink { link_text : string; link_href : string }.
Record Image : Type := mkImage { image_src : string; image_alt : string }.

Record Content : Type := mkContent {
  headings : list string;
  text : string;
  links : list Link;
  images : list Image;
  lists : list (list string);
  tables : list (list (list string))
}.

Record Section : Type := mkSection {
  sec_id : string;
  sec_type : string;
  label : string;
  sourceUrl : string;
  content : Content;
  rawHtml : string;
  truncated : bool
}.

(** The marker appended to a cut [rawHtml]. *)
Definition marker : string := "...".

(** ** [_extract_section_from_element] *)

(** The type given by the tag name. *)
Definition type_of_tag (tag_name : string) : string :=
  if String.eqb tag_name "header" then "nav"
  else if String.eqb tag_name "nav" then "nav"
  else if String.eqb tag_name "footer" then "footer"
  else if Py.mem tag_name ["section"; "article"; "main"] then "section"
  else "unknown".

(** The [if]/[elif]/[elif] chain on the class attribute. *)
Definition type_of_class (class_str : string) (section_type : string) : string :=
  if Py.contains "hero" (Py.lower class_str) then "hero"
  else if Py.contains "faq" (Py.lower class_str) then "faq"
  else if Py.contains "pricing" (Py.lower class_str) then "pricing"
  else section_type.

Definition section_type_of (element : Dom.Tag) : string :=
  let tag_name :=
    if Py.truthy (Dom.name element) then Py.lower (Dom.name element) else "unknown" in
  let class_attr := Dom.get_class element in
  let class_str := Py.join " " class_attr in
  type_of_class class_str (type_of_tag tag_name).

(** The texts of [tags] that pass [keep], appended to [acc] in order. *)
Definition collect_texts (keep : list string -> string -> bool)
    (tags : list Dom.Tag) (acc : list string) : list string :=
  fold_left (fun parts t =>
               let text := Dom.get_text_strip t in
               if keep parts text then parts ++ [text] else parts)
            tags acc.

Definition extract_headings (element : Dom.Tag) : list string :=
  collect_texts (fun _ text => Py.truthy text)
    (Dom.select ["h1"; "h2"; "h3"; "h4"; "h5"; "h6"] element) [].

Definition extract_text_parts (element : Dom.Tag) : list string :=
  let text_parts :=
    collect_texts (fun _ text => Py.truthy text && (10 <? Py.len text))
      (Dom.select ["p"] element) [] in
  if length text_parts <? 2 then
    collect_texts
      (fun parts text => Py.truthy text && (20 <? Py.len text) && negb (Py.mem text parts))
      (Dom.select ["div"; "span"] element) text_parts
  else text_parts.

Definition extract_lists (element : Dom.Tag) : list (list string) :=
  fold_left (fun lists ul_ol =>
               let items :=
                 collect_texts (fun _ item_text => Py.truthy item_text)
                   (Dom.select ["li"] ul_ol) [] in
               match items with [] => lists | _ => lists ++ [items] end)
            (Dom.select ["ul"; "ol"] element) [].

Definition extract_tables (element : Dom.Tag) : list (list (list string)) :=
  fold_left (fun tables table =>
               let table_data :=
                 fold_left (fun rows tr =>
                              let row := map Dom.get_text_strip (Dom.select ["td"; "th"] tr) in
                              match row with [] => rows | _ => rows ++ [row] end)
                           (Dom.select ["tr"] table) [] in
               match table_data with [] => tables | _ => tables ++ [table_data] end)
            (Dom.select ["table"] element) [].

Definition make_label (headings : list string) (text_content : string) : string :=
  match headings with
  | h :: _ => Py.take 50 h
  | [] =>
      if Py.truthy text_content then Py.join " " (take 7 (Py.split text_content))
      else "Section"
  end.

Section Extraction.

(** [urllib.parse.urljoin]: it resolves a reference against a base, and
    raises [ValueError] on a reference it cannot split. *)
Variable urljoin : string -> string -> result string.

Fixpoint extract_links (source_url : string) (anchors : list Dom.Tag) (links : list Link)
    : result (list Link) :=
  match anchors with
  | [] => Ok links
  | a :: rest =>
      match Dom.get "href" a with
      | Some href =>
          if Py.truthy href then
            absolute_url ← urljoin source_url href;
            let link_text := Dom.get_text_strip a in
            if Py.truthy link_text then
              extract_links source_url rest
                (links ++ [ {| link_text := Py.take 100 link_text; link_href := absolute_url |} ])
            else extract_links source_url rest links
          else extract_links source_url rest links
      | None => extract_links source_url rest links
      end
  end.

(** [img.get("src") or img.get("data-src")] *)
Definition image_source (img : Dom.Tag) : option string :=
  match Dom.get "src" img with
  | Some src => if Py.truthy src then Some src else Dom.get "data-src" img
  | None => Dom.get "data-src" img
  end.

Fixpoint extract_images (source_url : string) (imgs : list Dom.Tag) (images : list Image)
    : result (list Image) :=
  match imgs with
  | [] => Ok images
  | img :: rest =>
      match image_source img with
      | Some src =>
          if Py.truthy src then
            absolute_src ← urljoin source_url src;
            let alt := default "" (Dom.get "alt" img) in
            extract_images source_url rest
              (images ++ [ {| image_src := absolute_src; image_alt := alt |} ])
          else extract_images source_url rest images
      | None => extract_images source_url rest images
      end
  end.

Definition _extract_section_from_element
    (element : option Dom.Tag) (source_url : string) (section_id : nat)
    : result (option Section) :=
  match element with
  | None => Ok None
  | Some element =>
      let section_type := section_type_of element in
      let headings := extract_headings element in
      let text_parts := extract_text_parts element in
      let text_content := Py.join " " (take 10 text_parts) in
      links ← extract_links source_url (Dom.select ["a"] element) [];
      images ← extract_images source_url (Dom.select ["img"] element) [];
      let lists := extract_lists element in
      let tables := extract_tables element in
      let label := make_label headings text_content in
      let raw_html := Dom.str element in
      let '(raw_html, truncated) :=
        if 5000 <? Py.len raw_html then (Py.take 5000 raw_html +:+ marker, true)
        else (raw_html, false) in
      Ok (Some {|
        sec_id := section_type +:+ "-" +:+ Py.str_of_nat section_id;
        sec_type := section_type;
        label := Py.take 100 label;
        sourceUrl := source_url;
        content := {|
          headings := take 10 headings;
          text := Py.take 5000 text_content;
          links := take 50 links;
          images := take 20 images;
          lists := take 10 lists;
          tables := take 5 tables
        |};
        rawHtml := raw_html;
        truncated := truncated
      |})
  end.

End Extraction.

(** ** [_extract_sections] *)

Definition landmark_names : list string :=
  ["header"; "nav"; "main"; "section"; "footer"; "article"].

Definition heading_names : list string := ["h1"; "h2"; "h3"].

(** The words tested on the markup of a landmark, and on the markup of the
    parent of a heading.  The method also builds a list [noise_selectors]
    (script, style, noscript, the classes that hold cookie, banner, modal,
    popup or overlay, the ids that hold cookie, banner, modal or popup) and
    never reads it: it has no part in what is computed. *)
Definition landmark_noise : list string := ["cookie"; "banner"; "modal"; "popup"].
Definition heading_noise : list string := ["cookie"; "banner"; "modal"].

Section Segmentation.

Variable urljoin : string -> string -> result string.
Variable source_url : string.

(** The body shared by both loops: [continue] on noise, otherwise extract
    and, when a section comes back, append it and advance the counter. *)
Fixpoint region_loop (noise : list string) (regions : list Dom.Tag)
    (sections : list Section) (section_id_counter : nat)
    : result (list Section * nat) :=
  match regions with
  | [] => Ok (sections, section_id_counter)
  | region :: rest =>
      if Py.any_in noise (Py.lower (Dom.str region)) then
        region_loop noise rest sections section_id_counter
      else
        section ← _extract_section_from_element urljoin (Some region) source_url
                    section_id_counter;
        match section with
        | Some s => region_loop noise rest (sections ++ [s]) (S section_id_counter)
        | None => region_loop noise rest sections section_id_counter
        end
  end.

Definition _extract_sections (parser : Dom.Tag) : result (list Section) :=
  let landmarks := Dom.select landmark_names parser in
  '(sections, section_id_counter) ←
    match landmarks with
    | [] =>
        (* every selected heading has a parent: the loop runs over them *)
        region_loop heading_noise (Dom.select_parents heading_names parser) [] 0
    | _ :: _ => region_loop landmark_noise landmarks [] 0
    end;
  match sections with
  | [] =>
      match Dom.select_one ["body"] parser with
      | Some body =>
          section ← _extract_section_from_element urljoin (Some body) source_url
                      section_id_counter;
          match section with
          | Some s => Ok (sections ++ [s])
          | None => Ok sections
          end
      | None => Ok sections
      end
  | _ :: _ => Ok sections
  end.

End Segmentation.

(** ** The scraper object and the browser

    [Scraper] holds the fields of a [WebsiteScraper] that change during one
    [scrape()]: the visited set, the interaction log and the error list.
    Two more fields serve the model only: [js_scrapes] counts the entries
    into [_js_scrape], and [clock] counts the browser operations issued so
    far; the browser answers an operation by its arguments and the clock. *)

Record Interactions : Type := mkInteractions {
  clicks : list string;
  scrolls : nat;
  pages : list string
}.

Record ErrorRecord : Type := mkError { message : string; phase : string }.

Record Scraper : Type := mkScraper {
  visited_urls : gset string;
  interactions : Interactions;
  errors : list ErrorRecord;
  js_scrapes : nat;
  clock : nat
}.

(** [WebsiteScraper.__init__] *)
Definition init : Scraper := {|
  visited_urls := ∅;
  interactions := {| clicks := []; scrolls := 0; pages := [] |};
  errors := [];
  js_scrapes := 0;
  clock := 0
|}.

(** An element handle returned by a query. *)
Definition handle : Type := nat.

(** The driver: every operation may raise when it is issued.  [launch]
    stands for entering [async_playwright()], launching the browser and
    opening the context and the page. *)
Record Browser : Type := mkBrowser {
  launch : result unit;
  goto : string -> nat -> result unit;
  query_selector_all : string -> nat -> result (list handle);
  query_selector : string -> nat -> result (option handle);
  click : handle -> nat -> result unit;
  get_attribute : handle -> string -> nat -> result (option string);
  evaluate : string -> nat -> result Z;
  wait_for_selector : string -> nat -> result unit;
  page_content : nat -> result string;
  close : nat -> result unit
}.

(** What a scrape depends on besides its own code. *)
Record World : Type := mkWorld {
  url : string;
  http_get : result string;
  parse_html : string -> result Dom.Tag;
  parse_lxml : string -> result Dom.Tag;
  urljoin : string -> string -> result string;
  PLAYWRIGHT_AVAILABLE : bool;
  browser : Browser
}.

(** ** State and exceptions

    A method runs on the scraper object and returns or raises; what it did
    to the object before raising stays done. *)

Definition M (A : Type) : Type := Scraper -> result A * Scraper.

#[global] Instance M_ret : MRet M := fun A a s => (Ok a, s).
#[global] Instance M_bind : MBind M := fun A B f m s =>
  match m s with
  | (Ok a, s') => f a s'
  | (Raise e, s') => (Raise e, s')
  end.

Definition raise {A} (e : string) : M A := fun s => (Raise e, s).

Definition lift {A} (r : result A) : M A := fun s => (r, s).

Definition get_state : M Scraper := fun s => (Ok s, s).

(** [try: m  except Exception as e: handler(e)] *)
Definition try_except {A} (m : M A) (handler : string -> M A) : M A := fun s =>
  match m s with
  | (Ok a, s') => (Ok a, s')
  | (Raise e, s') => handler e s'
  end.

(** [try: m  except: ...] where the handler only resumes the enclosing
    code: [None] tells that [m] raised. *)
Definition attempt {A} (m : M A) : M (option A) :=
  try_except (a ← m; mret (Some a)) (fun _ => mret None).

(** One browser operation. *)
Definition call {A} (op : nat -> result A) : M A := fun s =>
  (op (clock s),
   {| visited_urls := visited_urls s; interactions := interactions s;
      errors := errors s; js_scrapes := js_scrapes s; clock := S (clock s) |}).

(** [page.wait_for_timeout(ms)] only lets time pass, and time is not part
    of the state. *)
Definition wait_for_timeout (ms : nat) : M unit := mret tt.

Definition set_interactions (i : Interactions) : M unit := fun s =>
  (Ok tt,
   {| visited_urls := visited_urls s; interactions := i;
      errors := errors s; js_scrapes := js_scrapes s; clock := clock s |}).

(** [self.interactions["clicks"].append(selector)] *)
Definition append_click (selector : string) : M unit :=
  s ← get_state;
  let i := interactions s in
  set_interactions {| clicks := clicks i ++ [selector]; scrolls := scrolls i; pages := pages i |}.

(** [self.interactions["scrolls"] += 1] *)
Definition increment_scrolls : M unit :=
  s ← get_state;
  let i := interactions s in
  set_interactions {| clicks := clicks i; scrolls := scrolls i + 1; pages := pages i |}.

(** [self.interactions["pages"].append(u)] *)
Definition append_page (u : string) : M unit :=
  s ← get_state;
  let i := interactions s in
  set_interactions {| clicks := clicks i; scrolls := scrolls i; pages := pages i ++ [u] |}.

(** [self.visited_urls.add(u)] *)
Definition add_visited (u : string) : M unit := fun s =>
  (Ok tt,
   {| visited_urls := {[u]} ∪ visited_urls s; interactions := interactions s;
      errors := errors s; js_scrapes := js_scrapes s; clock := clock s |}).

(** [self.errors.extend(records)] *)
Definition extend_errors (records : list ErrorRecord) : M unit := fun s =>
  (Ok tt,
   {| visited_urls := visited_urls s; interactions := interactions s;
      errors := errors s ++ records; js_scrapes := js_scrapes s; clock := clock s |}).

(** [self.errors.append(record)] *)
Definition append_error (record : ErrorRecord) : M unit := extend_errors [record].

Definition enter_js_scrape : M unit := fun s =>
  (Ok tt,
   {| visited_urls := visited_urls s; interactions := interactions s;
      errors := errors s; js_scrapes := S (js_scrapes s); clock := clock s |}).

(** ** The render path *)

(** [s] between double quotes, for the selectors that hold a quoted word. *)
Definition quoted (s : string) : string := Dom.dquote +:+ s +:+ Dom.dquote.

Definition has_text (tag word : string) : string :=
  tag +:+ ":has-text(" +:+ quoted word +:+ ")".

Definition class_has (word : string) : string :=
  "[class*=" +:+ quoted word +:+ "]".

Definition tab_selector : string :=
  "[role=" +:+ quoted "tab" +:+ "], .tab, " +:+ class_has "tab".

(** The entry logged for a tab click. *)
Definition tab_click : string := "[role=" +:+ quoted "tab" +:+ "] or .tab".

Definition load_more_selectors : list string :=
  [has_text "button" "Load more"; has_text "button" "Show more";
   has_text "a" "Load more"; class_has "load-more"; class_has "show-more"].

Definition next_links : list string :=
  [has_text "a" "Next"; has_text "a" "next"; class_has "next";
   class_has "pagination" +:+ " a:last-child"].

Definition scroll_to_bottom : string := "window.scrollTo(0, document.body.scrollHeight)".
Definition scroll_height : string := "document.body.scrollHeight".

(** The value [_js_scrape] returns: its [interactions] entry is the
    scraper's own log at the time of the return. *)
Record JsResult : Type := mkJsResult {
  js_sections : list Section;
  js_interactions : Interactions;
  js_errors : list ErrorRecord
}.

(** [for selector in selectors: try: ... break  except: continue]: [body]
    tells whether it reached its [break]; the loop moves on to the next
    selector when it did not, also when it raised. *)
Fixpoint first_success (body : string -> M bool) (selectors : list string) : M unit :=
  match selectors with
  | [] => mret tt
  | selector :: rest =>
      broke ← attempt (body selector);
      match broke with
      | Some true => mret tt
      | _ => first_success body rest
      end
  end.

Section Render.

Variable w : World.

(** The [try] body of the tab click. *)
Definition click_first_tab (tab : handle) : M unit :=
  call (click (browser w) tab);;
  append_click tab_click;;
  wait_for_timeout 1000.

(** The [try] body of the loop over [load_more_selectors]. *)
Definition click_load_more (selector : string) : M bool :=
  button ← call (query_selector (browser w) selector);
  match button with
  | Some button =>
      call (click (browser w) button);;
      append_click selector;;
      wait_for_timeout 2000;;
      mret true
  | None => mret false
  end.

(** The outer [try] body of [_handle_interactions]. *)
Definition interactions_body : M unit :=
  tabs ← call (query_selector_all (browser w) tab_selector);
  match tabs with
  | tab :: _ => attempt (click_first_tab tab);; mret tt
  | [] => mret tt
  end;;
  first_success click_load_more load_more_selectors.

Definition interaction_failed (e : string) : ErrorRecord :=
  {| message := "Interaction handling failed: " +:+ e; phase := "interaction" |}.

Definition _handle_interactions : M unit :=
  try_except interactions_body (fun e => append_error (interaction_failed e)).

(** The [try] body of the loop over [next_links]. *)
Definition follow_next_link (selector : string) : M bool :=
  next_link ← call (query_selector (browser w) selector);
  match next_link with
  | Some next_link =>
      href ← call (get_attribute (browser w) next_link "href");
      match href with
      | Some href =>
          if Py.truthy href then
            next_url ← lift (urljoin w (url w) href);
            s ← get_state;
            if bool_decide (next_url ∉ visited_urls s)
               && (size (visited_urls s) <? 3) then
              call (click (browser w) next_link);;
              call (wait_for_selector (browser w) "body");;
              add_visited next_url;;
              append_page next_url;;
              mret true
            else mret false
          else mret false
      | None => mret false
      end
  | None => mret false
  end.

(** One turn of the [for i in range(3)] loop. *)
Definition scroll_once (i : nat) : M unit :=
  call (evaluate (browser w) scroll_to_bottom);;
  increment_scrolls;;
  wait_for_timeout 2000;;
  current_height ← call (evaluate (browser w) scroll_height);
  wait_for_timeout 1000;;
  new_height ← call (evaluate (browser w) scroll_height);
  if (current_height =? new_height)%Z && (i =? 0)
  then first_success follow_next_link next_links
  else mret tt.

(** The [for i in range(3)] loop, over the values of [i] still to run. *)
Fixpoint scroll_loop (range : list nat) : M unit :=
  match range with
  | [] => mret tt
  | i :: rest => scroll_once i;; scroll_loop rest
  end.

(** The [for _ in range(n)] loop of further scrolls. *)
Fixpoint more_scrolling (n : nat) : M unit :=
  match n with
  | 0 => mret tt
  | S n' =>
      call (evaluate (browser w) scroll_to_bottom);;
      increment_scrolls;;
      wait_for_timeout 1500;;
      more_scrolling n'
  end.

(** The [try] body of [_handle_scroll_and_pagination]. *)
Definition scroll_body : M unit :=
  scroll_loop (seq 0 3);;
  s ← get_state;
  if (length (pages (interactions s)) <? 3) && (scrolls (interactions s) <? 3)
  then more_scrolling (3 - scrolls (interactions s))
  else mret tt.

Definition scroll_failed (e : string) : ErrorRecord :=
  {| message := "Scroll/pagination failed: " +:+ e; phase := "scroll" |}.

Definition _handle_scroll_and_pagination : M unit :=
  try_except scroll_body (fun e => append_error (scroll_failed e)).

Definition playwright_missing : ErrorRecord := {|
  message := "Playwright not available. Install with: pip install playwright && playwright install chromium";
  phase := "render" |}.

(** The [try] body of [_js_scrape]. *)
Definition js_body : M (option JsResult) :=
  call (goto (browser w) (url w));;
  add_visited (url w);;
  append_page (url w);;
  wait_for_timeout 2000;;
  _handle_interactions;;
  _handle_scroll_and_pagination;;
  html ← call (page_content (browser w));
  parser ← lift (parse_lxml w html);
  sections ← lift (_extract_sections (urljoin w) (url w) parser);
  call (close (browser w));;
  s ← get_state;
  mret (Some {| js_sections := sections;
                js_interactions := interactions s;
                js_errors := [] |}).

Definition _js_scrape : M (option JsResult) :=
  enter_js_scrape;;
  if negb (PLAYWRIGHT_AVAILABLE w) then
    append_error playwright_missing;;
    mret None
  else
    lift (launch (browser w));;
    try_except js_body (fun e => call (close (browser w));; raise e).

End Render.

(** ** [scrape] *)

(** The page envelope.  [scrapedAt] (the wall clock) and [meta] are left
    out: [_extract_meta] writes [self.meta] only, which nothing below
    reads. *)
Record Envelope : Type := mkEnvelope {
  env_url : string;
  env_sections : list Section;
  env_interactions : Interactions;
  env_errors : list ErrorRecord
}.

(** The section put in when no other was found. *)
Definition sentinel (u : string) : Section := {|
  sec_id := "empty-0";
  sec_type := "unknown";
  label := "No content found";
  sourceUrl := u;
  content := {| headings := []; text := ""; links := []; images := [];
                lists := []; tables := [] |};
  rawHtml := "";
  truncated := false
|}.

(** [sum(len(s["content"]["text"]) for s in sections)] *)
Definition total_text (sections : list Section) : nat :=
  foldr (fun s n => Py.len (text (content s)) + n) 0 sections.

Definition fetch_failed (e : string) : ErrorRecord :=
  {| message := "Static fetch failed: " +:+ e; phase := "fetch" |}.

Definition render_failed (e : string) : ErrorRecord :=
  {| message := "JS scraping failed: " +:+ e; phase := "render" |}.

Section Scrape.

Variable w : World.

Definition _static_fetch : M (option string) :=
  try_except (text ← lift (http_get w); mret (Some text))
    (fun e => append_error (fetch_failed e);; mret None).

(** The [try] block of lines 63 to 74: the render path after a static
    pass that found little text; [sections] is what that pass found. *)
Definition render_after_static (sections : list Section) : M (list Section) :=
  try_except (
    js_result ← _js_scrape w;
    match js_result with
    | Some r =>
        match js_sections r with
        | _ :: _ =>
            set_interactions (js_interactions r);;
            extend_errors (js_errors r);;
            mret (js_sections r)
        | [] => mret sections
        end
    | None => mret sections
    end)
  (fun e => append_error (render_failed e);; mret sections).

(** The [try] block of lines 77 to 88: the render path when the static
    fetch gave nothing. *)
Definition render_without_static : M (list Section) :=
  try_except (
    js_result ← _js_scrape w;
    match js_result with
    | Some r =>
        set_interactions (js_interactions r);;
        extend_errors (js_errors r);;
        mret (js_sections r)
    | None => mret []
    end)
  (fun e => append_error (render_failed e);; mret []).

(** Lines 50 to 88: the value of [sections] before the last test. *)
Definition scrape_sections : M (list Section) :=
  static_html ← _static_fetch;
  match static_html with
  | Some (String _ _ as static_html) =>
      parser ← lift (parse_html w static_html);
      sections ← lift (_extract_sections (urljoin w) (url w) parser);
      if total_text sections <? 500 then render_after_static sections
      else mret sections
  | Some EmptyString | None => render_without_static
  end.

Definition scrape : M Envelope :=
  sections ← scrape_sections;
  let sections :=
    match sections with
    | [] => [sentinel (url w)]
    | _ :: _ => sections
    end in
  s ← get_state;
  mret {| env_url := url w;
          env_sections := sections;
          env_interactions := interactions s;
          env_errors := errors s |}.

(** The sections of the static pass: none when the fetch failed or the
    body was empty. *)
Definition static_sections : result (list Section) :=
  match http_get w with
  | Ok html =>
      if Py.truthy html then
        parser ← parse_html w html;
        _extract_sections (urljoin w) (url w) parser
      else Ok []
  | Raise _ => Ok []
  end.

End Scrape.

(** * Notions used in the statements *)

(** The caps on one section. *)
Definition within_caps (s : Section) : Prop :=
  length (headings (content s)) ≤ 10 ∧
  length (links (content s)) ≤ 50 ∧
  length (images (content s)) ≤ 20 ∧
  length (lists (content s)) ≤ 10 ∧
  length (tables (content s)) ≤ 5 ∧
  Py.len (text (content s)) ≤ 5000 ∧
  Forall (fun l => Py.len (link_text l) ≤ 100) (links (content s)) ∧
  Py.len (label s) ≤ 100 ∧
  Py.len (rawHtml s) ≤ 5000 + Py.len marker.

(** The class string that the classification tests. *)
Definition class_string (element : Dom.Tag) : string :=
  Py.lower (Py.join " " (Dom.get_class element)).

(** The regions a loop does not skip. *)
Definition kept (noise : list string) (regions : list Dom.Tag) : list Dom.Tag :=
  List.filter (fun r => negb (Py.any_in noise (Py.lower (Dom.str r)))) regions.

(** The sections of a list of regions, numbered from [ordinal] on. *)
Fixpoint extract_regions (urljoin : string -> string -> result string)
    (source_url : string) (regions : list Dom.Tag) (ordinal : nat)
    : result (list Section) :=
  match regions with
  | [] => Ok []
  | region :: rest =>
      section ← _extract_section_from_element urljoin (Some region) source_url ordinal;
      match section with
      | Some s =>
          sections ← extract_regions urljoin source_url rest (S ordinal);
          Ok (s :: sections)
      | None => extract_regions urljoin source_url rest ordinal
      end
  end.

Inductive Tier : Type := LandmarkTier | HeadingTier | BodyTier.

Definition regions_of_tier (parser : Dom.Tag) (tier : Tier) : list Dom.Tag :=
  match tier with
  | LandmarkTier => kept landmark_noise (Dom.select landmark_names parser)
  | HeadingTier => kept heading_noise (Dom.select_parents heading_names parser)
  | BodyTier => option_list (Dom.select_one ["body"] parser)
  end.

(** The tier the code takes its regions from: the headings are looked at
    only when the document has no landmark element at all. *)
Definition tier_of (parser : Dom.Tag) : Tier :=
  match Dom.select landmark_names parser with
  | [] =>
      match regions_of_tier parser HeadingTier with
      | [] => BodyTier
      | _ :: _ => HeadingTier
      end
  | _ :: _ =>
      match regions_of_tier parser LandmarkTier with
      | [] => BodyTier
      | _ :: _ => LandmarkTier
      end
  end.

(** The tier as the specification words it: the first of the three that
    yields a region. *)
Definition tier_by_first_yield (parser : Dom.Tag) : Tier :=
  match regions_of_tier parser LandmarkTier with
  | _ :: _ => LandmarkTier
  | [] =>
      match regions_of_tier parser HeadingTier with
      | _ :: _ => HeadingTier
      | [] => BodyTier
      end
  end.

(** The five words of the specification's denylist. *)
Definition denylist : list string := ["cookie"; "banner"; "modal"; "popup"; "overlay"].


(** The ids of [ss] are made of each section's type and of the ordinals
    [k], [k + 1], ... in order. *)
Definition numbered_from (k : nat) (ss : list Section) : Prop :=
  ∀ i s, ss !! i = Some s → sec_id s = sec_type s +:+ "-" +:+ Py.str_of_nat (k + i).

(** What a step may do to the log: add at most [dc] clicks, [ds] scrolls
    and [dp] pages, enter [_js_scrape] no further time. *)
Definition log_within (dc ds dp : nat) (s s' : Scraper) : Prop :=
  length (clicks (interactions s')) ≤ length (clicks (interactions s)) + dc ∧
  scrolls (interactions s') ≤ scrolls (interactions s) + ds ∧
  length (pages (interactions s')) ≤ length (pages (interactions s)) + dp ∧
  js_scrapes s' = js_scrapes s.

(** A step that adds to the log within these bounds and reports no error. *)
Definition quiet {A} (dc ds dp : nat) (m : M A) : Prop :=
  ∀ s, log_within dc ds dp s (m s).2 ∧ errors (m s).2 = errors s.

(** A step that adds to the log within these bounds and appends only error
    records that satisfy [P]. *)
Definition logs {A} (dc ds dp : nat) (P : ErrorRecord → Prop) (m : M A) : Prop :=
  ∀ s, log_within dc ds dp s (m s).2 ∧
       ∃ news, errors (m s).2 = errors s ++ news ∧ Forall P news.

(** The phases of the records the render path appends by itself. *)
Definition render_phase (r : ErrorRecord) : Prop :=
  phase r = "render" ∨ phase r = "interaction" ∨ phase r = "scroll".

(** A loop body that leaves the log as it is unless it reaches its
    [break]. *)
Definition quiet_unless_break (dc ds dp : nat) (body : M bool) : Prop :=
  ∀ s, (log_within dc ds dp s (body s).2 ∧ errors (body s).2 = errors s) ∧
       ((body s).1 ≠ Ok true → log_within 0 0 0 s (body s).2).

(** The static fetch gave a body that is not empty. *)
Definition static_html_truthy (w : World) : bool :=
  match http_get w with
  | Ok (String _ _) => true
  | _ => false
  end.

(** The test that sends a scrape to the render path, on the sections of
    the static pass. *)
Definition escalates (w : World) (sections : list Section) : bool :=
  negb (static_html_truthy w) || (total_text sections <? 500).

(** The sections a run of [_js_scrape] hands back: none when it raised or
    returned [None]. *)
Definition sections_of_js (r : result (option JsResult)) : list Section :=
  match r with
  | Ok (Some r) => js_sections r
  | _ => []
  end.

(** ** Sample inputs *)

Definition elem (name : string) (attrs : list (string * string))
    (contents : list Dom.PageElement) : Dom.PageElement :=
  Dom.Element (Dom.mkTag name attrs contents).

Definition txt (s : string) : Dom.PageElement := Dom.NavigableString s.

Definition document (contents : list Dom.PageElement) : Dom.Tag :=
  Dom.mkTag "[document]" [] contents.

(** [urljoin] on a base without a path and references that start with a
    slash: the reference is appended; a reference whose authority opens a
    bracket it never closes is refused as the library refuses it. *)
Definition urljoin_rooted (base ref : string) : result string :=
  if Py.startswith "//[" ref then Raise "Invalid IPv6 URL" else Ok (base +:+ ref).

Definition seed : string := "https://x.test".

(** [<section><h2>Plans</h2><p>...</p><a href="/buy">Buy now</a></section>] *)
Definition plans_section : Dom.Tag :=
  Dom.mkTag "section" []
    [elem "h2" [] [txt "Plans"];
     elem "p" [] [txt "Three plans, billed monthly."];
     elem "a" [("href", "/buy")] [txt "Buy now"]].

(** [<div class="hero faq pricing"></div>] *)
Definition three_classes : Dom.Tag :=
  Dom.mkTag "div" [("class", "hero faq pricing")] [].

(** [<body><section class="cookie">x</section><div><h1>Title</h1></div></body>] *)
Definition excluded_landmark_page : Dom.Tag :=
  document
    [elem "body" []
       [elem "section" [("class", "cookie")] [txt "x"];
        elem "div" [] [elem "h1" [] [txt "Title"]]]].

(** [<body><h1>Welcome</h1><p>Short text under five hundred chars total.</p></body>] *)
Definition welcome_page : Dom.Tag :=
  document
    [elem "body" []
       [elem "h1" [] [txt "Welcome"];
        elem "p" [] [txt "Short text under five hundred chars total."]]].

(** [<body><section class="overlay"><p>Subscribe to our newsletter</p></section></body>] *)
Definition overlay_page : Dom.Tag :=
  document
    [elem "body" []
       [elem "section" [("class", "overlay")]
          [elem "p" [] [txt "Subscribe to our newsletter"]]]].

(** [<body><div class="popup"><h1>Offer</h1></div></body>] *)
Definition popup_page : Dom.Tag :=
  document [elem "body" [] [elem "div" [("class", "popup")] [elem "h1" [] [txt "Offer"]]]].

(** A page on which no selector matches and no operation fails; its
    content parses to [welcome_page]. *)
Definition still_browser : Browser := {|
  launch := Ok tt;
  goto := λ _ _, Ok tt;
  query_selector_all := λ _ _, Ok [];
  query_selector := λ _ _, Ok None;
  click := λ _ _, Ok tt;
  get_attribute := λ _ _ _, Ok None;
  evaluate := λ _ _, Ok 1080%Z;
  wait_for_selector := λ _ _, Ok tt;
  page_content := λ _, Ok (Dom.str welcome_page);
  close := λ _, Ok tt
|}.


(** A page where every selector matches, every click works and the next
    link leads to [/page/2]. *)
Definition busy_browser : Browser := {|
  launch := Ok tt;
  goto := λ _ _, Ok tt;
  query_selector_all := λ _ _, Ok [1];
  query_selector := λ _ _, Ok (Some 2);
  click := λ _ _, Ok tt;
  get_attribute := λ _ _ _, Ok (Some "/page/2");
  evaluate := λ _ _, Ok 1080%Z;
  wait_for_selector := λ _ _, Ok tt;
  page_content := λ _, Ok (Dom.str welcome_page);
  close := λ _, Ok tt
|}.

Definition world_of (fetched : result string) (static_page : Dom.Tag)
    (available : bool) (b : Browser) : World := {|
  url := seed;
  http_get := fetched;
  parse_html := λ _, Ok static_page;
  parse_lxml := λ _, Ok welcome_page;
  urljoin := urljoin_rooted;
  PLAYWRIGHT_AVAILABLE := available;
  browser := b
|}.

(** The static page is [welcome_page]; the browser shows the same. *)
Definition welcome_world : World :=
  world_of (Ok (Dom.str welcome_page)) welcome_page true still_browser.

(** No answer to the static fetch and no browser. *)
Definition offline_world : World :=
  world_of (Raise "Connection refused") (document []) false still_browser.


Definition busy_world : World :=
  world_of (Ok (Dom.str welcome_page)) welcome_page true busy_browser.

(** [<body><main><a href="//[">home</a></main></body>] *)
Definition bad_href_page : Dom.Tag :=
  document [elem "body" [] [elem "main" [] [elem "a" [("href", "//[")] [txt "home"]]]].

Definition bad_href_world : World :=
  world_of (Ok (Dom.str bad_href_page)) bad_href_page true still_browser.

(** A fetch record first, if the fetch failed. *)
Definition fetch_errors (w : World) : list ErrorRecord :=
  match http_get w with
  | Raise e => [fetch_failed e]
  | Ok _ => []
  end.

(** What an envelope holds for the working list [working] of sections. *)
Definition or_sentinel (u : string) (working : list Section) : list Section :=
  match working with
  | [] => [sentinel u]
  | _ :: _ => working
  end.




(** The static page is [welcome_page]; there is no browser. *)
Definition no_playwright_world : World :=
  world_of (Ok (Dom.str welcome_page)) welcome_page false still_browser.

(** The section is what [_extract_section_from_element] returns for some
    element and some ordinal. *)
Definition extracted_from (urljoin : string -> string -> result string)
    (source_url : string) (s : Section) : Prop :=
  ∃ element i,
    _extract_section_from_element urljoin (Some element) source_url i = Ok (Some s).

(** The types a section can have. *)
Definition section_types : list string :=
  ["unknown"; "nav"; "footer"; "section"; "hero"; "faq"; "pricing"].

(** The string starts with a character that is not white space. *)
Definition starts_with_word (s : string) : bool :=
  match s with
  | String c _ => negb (Py.is_space c)
  | EmptyString => false
  end.

(** [<body><p>Just a paragraph of plain text.</p></body>] *)
Definition plain_page : Dom.Tag :=
  document [elem "body" [] [elem "p" [] [txt "Just a paragraph of plain text."]]].

(** [<div><h2>First</h2><h3>Second</h3></div>] under the body: two headings
    with one parent. *)
Definition twin_headings_page : Dom.Tag :=
  document
    [elem "body" []
       [elem "div" [] [elem "h2" [] [txt "First"]; elem "h3" [] [txt "Second"]]]].

(** A region with links and images: a relative link, a link without text,
    an image with [src] and one with [data-src] only. *)
Definition media_section : Dom.Tag :=
  Dom.mkTag "section" []
    [elem "a" [("href", "/docs")] [txt " Docs "];
     elem "a" [("href", "/empty")] [];
     elem "a" [] [txt "no target"];
     elem "img" [("src", "/a.png"); ("alt", "A")] [];
     elem "img" [("data-src", "/b.png")] []].

(** A step that leaves a predicate on the scraper object true. *)
Definition preserves {A} (I : Scraper → Prop) (m : M A) : Prop :=
  ∀ s, I s → I (m s).2.

(** The pages of the log start with the seed, hold no page twice, and are
    all in the visited set. *)
Definition pages_in_order (seed_url : string) (s : Scraper) : Prop :=
  NoDup (pages (interactions s)) ∧
  (∀ u, In u (pages (interactions s)) → u ∈ visited_urls s) ∧
  ∃ rest, pages (interactions s) = seed_url :: rest.

(** The log holds no page. *)
Definition no_page (s : Scraper) : Prop := pages (interactions s) = [].

Definition none_or_in_order (seed_url : string) (s : Scraper) : Prop :=
  no_page s ∨ pages_in_order seed_url s.

(** [self.interactions["scrolls"]] *)
Definition scrolls_of (s : Scraper) : nat := scrolls (interactions s).

(** From a state where [P] holds, the step leaves one where [Q] holds,
    whether it returns or raises. *)
Definition hoare {A} (P : Scraper → Prop) (m : M A) (Q : Scraper → Prop) : Prop :=
  ∀ s, P s → Q (m s).2.

(** ** [_extract_meta] *)

Record Meta : Type := mkMeta {
  title : string;
  description : string;
  language : string;
  canonical : option string
}.

(** [self.meta] as [__init__] leaves it. *)
Definition initial_meta : Meta :=
  {| title := ""; description := ""; language := "en"; canonical := None |}.

(** The value an attribute selector compares: the attribute as written,
    and for the attributes the parser keeps as lists ([class], [rel]) its
    tokens joined by one space. *)
Definition attribute_text (key : string) (t : Dom.Tag) : option string :=
  match Dom.get key t with
  | Some v =>
      Some (if Py.mem key ["class"; "rel"] then Py.join " " (Py.split v) else v)
  | None => None
  end.

(** [t.select_one('name[key="value"]')] *)
Definition select_one_with (name key value : string) (t : Dom.Tag) : option Dom.Tag :=
  head (List.filter
          (fun c => match attribute_text key c with
                    | Some v => String.eqb v value
                    | None => false
                    end)
          (Dom.select [name] t)).

Definition _extract_meta (parser : Dom.Tag) (meta : Meta) : Meta :=
  let title' :=
    match Dom.select_one ["title"] parser with
    | None =>
        match select_one_with "meta" "property" "og:title" parser with
        | Some og_title => default "" (Dom.get "content" og_title)
        | None => title meta
        end
    | Some title_elem => Dom.get_text_strip title_elem
    end in
  let description' :=
    match select_one_with "meta" "name" "description" parser with
    | None =>
        match select_one_with "meta" "property" "og:description" parser with
        | Some og_desc => default "" (Dom.get "content" og_desc)
        | None => description meta
        end
    | Some desc_elem => default "" (Dom.get "content" desc_elem)
    end in
  let language' :=
    match Dom.select_one ["html"] parser with
    | Some html_elem =>
        let lang := default "en" (Dom.get "lang" html_elem) in
        if Py.truthy lang then Py.take 2 lang else "en"
    | None => language meta
    end in
  let canonical' :=
    match select_one_with "link" "rel" "canonical" parser with
    | Some canonical_elem => Dom.get "href" canonical_elem
    | None => canonical meta
    end in
  {| title := title'; description := description'; language := language';
     canonical := canonical' |}.

(** ** The [/scrape] endpoint of [app.py] *)

(** The exceptions the endpoint tells apart: the two classes it names, and
    any other exception, of which it reads [str(e)]. *)
Inductive Exception : Type :=
| HTTPException (status_code : nat) (detail : string)
| ValidationError (text : string)
| OtherException (text : string).

Inductive outcome (A : Type) : Type :=
| Returns (a : A)
| Raises (e : Exception).
Arguments Returns {A} a.
Arguments Raises {A} e.

Definition unsupported_scheme : Exception :=
  HTTPException 400 "Only http and https URLs are supported".

Section Endpoint.

(** [urlparse(url).scheme]; [urlparse] raises on a URL it cannot split. *)
Variable urlparse_scheme : string -> result string.

(** [str(e)] of an [HTTPException], which depends on the framework's
    version. *)
Variable str_of_http : nat -> string -> string.

Definition str_of_exception (e : Exception) : string :=
  match e with
  | HTTPException status_code detail => str_of_http status_code detail
  | ValidationError text => text
  | OtherException text => text
  end.

(** The body of the [try]. *)
Definition endpoint_body (w : World) : outcome Envelope :=
  match urlparse_scheme (url w) with
  | Raise e => Raises (OtherException e)
  | Ok scheme =>
      if negb (Py.mem scheme ["http"; "https"]) then Raises unsupported_scheme
      else
        match (scrape w init).1 with
        | Ok result => Returns result
        | Raise e => Raises (OtherException e)
        end
  end.

(** The endpoint: [HTTPException] is an [Exception] and not a
    [ValidationError], so the second handler takes it. *)
Definition scrape_endpoint (w : World) : outcome Envelope :=
  match endpoint_body w with
  | Returns result => Returns result
  | Raises (ValidationError text) => Raises (HTTPException 400 text)
  | Raises e => Raises (HTTPException 500 ("Scraping failed: " +:+ str_of_exception e))
  end.

End Endpoint.

(** [<html lang="en-GB"><head><title> Shop </title> ... </head></html>] *)
Definition shop_page : Dom.Tag :=
  document
    [elem "html" [("lang", "en-GB")]
       [elem "head" []
          [elem "title" [] [txt " Shop "];
           elem "meta" [("property", "og:title"); ("content", "The Shop")] [];
           elem "meta" [("name", "description"); ("content", "All we sell")] [];
           elem "link" [("rel", "canonical"); ("href", "https://x.test/shop")] []]]].

(** * Properties *)

Arguments _extract_section_from_element : simpl never.
Arguments _extract_sections : simpl never.

(** ** Strings *)

Lemma len_take (n : nat) (s : string) : Py.len (Py.take n s) ≤ n.
Proof.
  unfold Py.len. revert s. induction n as [|n IH]; intros [|c s]; simpl; try lia.
  specialize (IH s). lia.
Qed.

Lemma take_all (n : nat) (s : string) : Py.len s ≤ n → Py.take n s = s.
Proof.
  unfold Py.len. revert s.
  induction n as [|n IH]; intros [|c s]; simpl; intros H; try lia; try done.
  f_equal. apply IH. lia.
Qed.

Lemma len_take_exact (n : nat) (s : string) : n ≤ Py.len s → Py.len (Py.take n s) = n.
Proof.
  unfold Py.len. revert s.
  induction n as [|n IH]; intros [|c s]; simpl; intros H; try lia.
  f_equal. apply IH. lia.
Qed.

Lemma len_app (s t : string) : Py.len (s +:+ t) = Py.len s + Py.len t.
Proof.
  unfold Py.len, String.app. induction s as [|c s IH]; simpl; [done|]. by rewrite IH.
Qed.

(** ** Content caps *)

Lemma length_take_bound {A} (n : nat) (l : list A) : length (take n l) ≤ n.
Proof. rewrite length_take. lia. Qed.

Lemma extract_links_text urljoin source_url anchors acc links :
  extract_links urljoin source_url anchors acc = Ok links →
  Forall (fun l => Py.len (link_text l) ≤ 100) acc →
  Forall (fun l => Py.len (link_text l) ≤ 100) links.
Proof.
  revert acc. induction anchors as [|a rest IH]; intros acc; simpl.
  - intros [= <-]. done.
  - destruct (Dom.get "href" a) as [href|]; [|by apply IH].
    destruct (Py.truthy href); [|by apply IH].
    destruct (urljoin source_url href) as [absolute_url|e]; simpl; [|done].
    destruct (Py.truthy (Dom.get_text_strip a)); [|by apply IH].
    intros Hrun Hacc. apply (IH _ Hrun).
    apply Forall_app. split; [done|]. constructor; [|done]. simpl. apply len_take.
Qed.

Lemma sentinel_within_caps (u : string) : within_caps (sentinel u).
Proof. unfold within_caps; simpl. repeat split; try lia. constructor. Qed.

(** What [_extract_section_from_element] returns for an element, when it
    returns: the record built at its end. *)
Lemma extract_section_inv urljoin element source_url section_id r :
  _extract_section_from_element urljoin (Some element) source_url section_id = Ok r →
  ∃ found_links found_images s,
    r = Some s ∧
    extract_links urljoin source_url (Dom.select ["a"] element) [] = Ok found_links ∧
    extract_images urljoin source_url (Dom.select ["img"] element) [] = Ok found_images ∧
    sec_id s = section_type_of element +:+ "-" +:+ Py.str_of_nat section_id ∧
    sec_type s = section_type_of element ∧
    label s = Py.take 100 (make_label (extract_headings element)
                             (Py.join " " (take 10 (extract_text_parts element)))) ∧
    sourceUrl s = source_url ∧
    content s = {|
      headings := take 10 (extract_headings element);
      text := Py.take 5000 (Py.join " " (take 10 (extract_text_parts element)));
      links := take 50 found_links;
      images := take 20 found_images;
      lists := take 10 (extract_lists element);
      tables := take 5 (extract_tables element) |} ∧
    rawHtml s = (if 5000 <? Py.len (Dom.str element)
                 then Py.take 5000 (Dom.str element) +:+ marker
                 else Dom.str element) ∧
    truncated s = (5000 <? Py.len (Dom.str element)).
Proof.
  unfold _extract_section_from_element.
  destruct (extract_links _ _ _ _) as [found_links|e]; simpl; [|done].
  destruct (extract_images _ _ _ _) as [found_images|e]; simpl; [|done].
  destruct (5000 <? Py.len (Dom.str element)) eqn:Hlen; intros [= <-];
    exists found_links, found_images; eexists; (split; [reflexivity|]); simpl;
    rewrite ?Hlen; repeat split; reflexivity.
Qed.

(** The caps, and the cut of the markup, read off the record that the
    extraction builds. *)
Lemma section_caps
    urljoin (element : Dom.Tag) (source_url : string) (section_id : nat) (s : Section) :
  _extract_section_from_element urljoin (Some element) source_url section_id = Ok (Some s) →
  within_caps s ∧
  (truncated s = true ↔ 5000 < Py.len (Dom.str element)) ∧
  (truncated s = true → rawHtml s = Py.take 5000 (Dom.str element) +:+ marker) ∧
  (truncated s = false → rawHtml s = Dom.str element).
Proof.
  intros Hrun.
  destruct (extract_section_inv _ _ _ _ _ Hrun)
    as (fl & fi & s' & [= <-] & Hl & _ & _ & _ & Hlabel & _ & Hcontent & Hraw & Htr).
  unfold within_caps. rewrite Hcontent, Hlabel, Hraw, Htr. simpl.
  split.
  - repeat split; try apply length_take_bound; try apply len_take.
    + apply Forall_take. eapply extract_links_text; [exact Hl|constructor].
    + destruct (5000 <? _) eqn:Hlen.
      * rewrite len_app. pose proof (len_take 5000 (Dom.str element)).
        change (Py.len marker) with 3. lia.
      * apply Nat.ltb_ge in Hlen. lia.
  - split; [apply Nat.ltb_lt|].
    split; intros ->; done.
Qed.

(** C2. Every section that [_extract_section_from_element] returns keeps to
    the caps: at most 10 headings, 50 links, 20 images, 10 lists and 5
    tables, a text of at most 5000 characters, link texts and a label of at
    most 100, a [rawHtml] of at most 5000 characters plus the marker; and
    [truncated] is true exactly when the markup of the element is longer
    than 5000 characters, in which case [rawHtml] is its first 5000
    characters followed by the marker, and the whole markup otherwise. *)
Theorem extracted_section_within_caps
    urljoin (element : Dom.Tag) (source_url : string) (section_id : nat) (s : Section) :
  _extract_section_from_element urljoin (Some element) source_url section_id = Ok (Some s) →
  within_caps s ∧
  (truncated s = true ↔ 5000 < Py.len (Dom.str element)) ∧
  (truncated s = true → rawHtml s = Py.take 5000 (Dom.str element) +:+ marker) ∧
  (truncated s = false → rawHtml s = Dom.str element).
Proof. apply section_caps. Qed.

Lemma extracted_section_within_caps_witness :
  ∃ s,
    _extract_section_from_element urljoin_rooted (Some plans_section) seed 0 = Ok (Some s) ∧
    within_caps s ∧
    (truncated s = true ↔ 5000 < Py.len (Dom.str plans_section)).
Proof.
  eexists. split; [vm_compute; reflexivity|].
  pose proof (extracted_section_within_caps urljoin_rooted plans_section seed 0 _ eq_refl)
    as (Hcaps & Htr & _).
  exact (conj Hcaps Htr).
Defined.

(** ** Classification *)

Lemma section_type_of_unfold (element : Dom.Tag) :
  section_type_of element =
  type_of_class (Py.join " " (Dom.get_class element))
    (type_of_tag (if Py.truthy (Dom.name element)
                  then Py.lower (Dom.name element) else "unknown")).
Proof. reflexivity. Qed.

(** C3 (as amended). The class tests form one [if]/[elif]/[elif] chain in
    the order hero, faq, pricing, so the first match wins: a class string
    that holds "hero" gives type "hero" whatever else it holds; one without
    "hero" that holds "faq" gives "faq"; one with neither that holds
    "pricing" gives "pricing"; and with none of the three the type of the
    tag stays. *)
Theorem class_override_first_match_wins (element : Dom.Tag) :
  let c := class_string element in
  let by_tag :=
    type_of_tag (if Py.truthy (Dom.name element)
                 then Py.lower (Dom.name element) else "unknown") in
  (Py.contains "hero" c = true → section_type_of element = "hero") ∧
  (Py.contains "hero" c = false → Py.contains "faq" c = true →
   section_type_of element = "faq") ∧
  (Py.contains "hero" c = false → Py.contains "faq" c = false →
   Py.contains "pricing" c = true → section_type_of element = "pricing") ∧
  (Py.contains "hero" c = false → Py.contains "faq" c = false →
   Py.contains "pricing" c = false → section_type_of element = by_tag).
Proof.
  intros c by_tag. rewrite section_type_of_unfold. unfold type_of_class.
  fold (class_string element). fold c.
  repeat split; intros; repeat match goal with H : Py.contains _ c = _ |- _ =>
    rewrite H; clear H end; reflexivity.
Qed.

(** The class of [three_classes] holds all three words, and its type is
    "hero", not "pricing". *)
Lemma three_classes_yield_hero :
  Py.contains "hero" (class_string three_classes) = true ∧
  Py.contains "faq" (class_string three_classes) = true ∧
  Py.contains "pricing" (class_string three_classes) = true ∧
  section_type_of three_classes = "hero" ∧
  section_type_of three_classes ≠ "pricing".
Proof. vm_compute. repeat split; congruence. Qed.

(** ** Segmentation *)

Lemma extract_regions_some urljoin source_url regions k ss :
  extract_regions urljoin source_url regions k = Ok ss →
  length ss = length regions.
Proof.
  revert k ss. induction regions as [|r rest IH]; intros k ss; simpl.
  - by intros [= <-].
  - destruct (_extract_section_from_element _ _ _ _) as [o|e] eqn:He; simpl; [|done].
    destruct (extract_section_inv _ _ _ _ _ He) as (_ & _ & s & -> & _).
    destruct (extract_regions _ _ rest _) as [ss'|e] eqn:Hr; simpl; [|done].
    intros [= <-]. simpl. f_equal. by eapply IH.
Qed.

(** A loop over regions appends the sections of the regions it keeps, and
    leaves the counter at the next free ordinal. *)
Lemma region_loop_spec urljoin source_url noise regions sections counter :
  region_loop urljoin source_url noise regions sections counter =
  (ss ← extract_regions urljoin source_url (kept noise regions) counter;
   Ok (sections ++ ss, counter + length ss)).
Proof.
  revert sections counter. induction regions as [|r rest IH]; intros sections counter.
  - simpl. by rewrite app_nil_r, Nat.add_0_r.
  - cbn [region_loop kept List.filter].
    destruct (Py.any_in noise (Py.lower (Dom.str r))); cbn [negb].
    + apply IH.
    + cbn [extract_regions].
      destruct (_extract_section_from_element _ _ _ _) as [[s|]|e]; simpl; [| |done].
      * rewrite IH. fold (kept noise rest).
        destruct (extract_regions _ _ _ _) as [ss|e]; simpl; [|done].
        by rewrite <- app_assoc, Nat.add_succ_r.
      * apply IH.
Qed.

Lemma extract_sections_by_tier urljoin source_url parser :
  _extract_sections urljoin source_url parser =
  extract_regions urljoin source_url (regions_of_tier parser (tier_of parser)) 0.
Proof.
  unfold _extract_sections, tier_of. cbn [regions_of_tier].
  destruct (Dom.select landmark_names parser) as [|l ls] eqn:Hl.
  - rewrite region_loop_spec.
    destruct (kept heading_noise _) as [|h hs] eqn:Hk.
    + simpl. destruct (Dom.select_one _ _) as [body|]; simpl; [|done].
      reflexivity.
    + cbn [regions_of_tier]. rewrite Hk.
      destruct (extract_regions _ _ (h :: hs) _) as [ss|e] eqn:He; simpl; [|done].
      apply extract_regions_some in He. destruct ss; [done|done].
  - rewrite region_loop_spec.
    destruct (kept landmark_noise _) as [|h hs] eqn:Hk.
    + simpl. destruct (Dom.select_one _ _) as [body|]; simpl; [|done].
      reflexivity.
    + cbn [regions_of_tier]. rewrite Hl, Hk.
      destruct (extract_regions _ _ (h :: hs) _) as [ss|e] eqn:He; simpl; [|done].
      apply extract_regions_some in He. destruct ss; [done|done].
Qed.

Lemma kept_nil_of_nil noise : kept noise [] = [].
Proof. reflexivity. Qed.

(** C4 (as amended). The sections of a document are those of the regions of
    one tier, numbered from 0.  The heading tier is that tier exactly when
    the document has no landmark element at all and some heading parent is
    kept; the body tier exactly when the tier that was tried kept nothing:
    the heading tier in a document without landmark elements, the landmark
    tier in a document with some.  A document whose landmark elements are
    all skipped goes to the body tier without a look at its headings. *)
Theorem segmentation_tiers urljoin (source_url : string) (parser : Dom.Tag) :
  _extract_sections urljoin source_url parser =
    extract_regions urljoin source_url (regions_of_tier parser (tier_of parser)) 0 ∧
  (tier_of parser = LandmarkTier ↔ regions_of_tier parser LandmarkTier ≠ []) ∧
  (tier_of parser = HeadingTier ↔
     Dom.select landmark_names parser = [] ∧ regions_of_tier parser HeadingTier ≠ []) ∧
  (tier_of parser = BodyTier ↔
     (Dom.select landmark_names parser = [] ∧ regions_of_tier parser HeadingTier = []) ∨
     (Dom.select landmark_names parser ≠ [] ∧ regions_of_tier parser LandmarkTier = [])).
Proof.
  split; [apply extract_sections_by_tier|].
  unfold tier_of. cbn [regions_of_tier].
  destruct (Dom.select landmark_names parser) as [|l ls].
  - rewrite kept_nil_of_nil.
    destruct (kept heading_noise _) as [|h hs]; intuition congruence.
  - destruct (kept landmark_noise _) as [|h hs]; intuition congruence.
Qed.

(** On [excluded_landmark_page] the only landmark element is skipped and a
    heading has a clean parent, so the first tier to yield a region is the
    heading tier; the sections are those of the body tier. *)
Lemma excluded_landmarks_go_to_body_tier :
  Dom.select landmark_names excluded_landmark_page ≠ [] ∧
  regions_of_tier excluded_landmark_page LandmarkTier = [] ∧
  regions_of_tier excluded_landmark_page HeadingTier ≠ [] ∧
  tier_by_first_yield excluded_landmark_page = HeadingTier ∧
  tier_of excluded_landmark_page = BodyTier ∧
  _extract_sections urljoin_rooted seed excluded_landmark_page =
    extract_regions urljoin_rooted seed
      (regions_of_tier excluded_landmark_page BodyTier) 0 ∧
  _extract_sections urljoin_rooted seed excluded_landmark_page ≠
    extract_regions urljoin_rooted seed
      (regions_of_tier excluded_landmark_page HeadingTier) 0.
Proof. vm_compute. repeat split; congruence. Qed.

(** ** The denylist *)


(** C5 (the code at the failing inputs). A landmark whose markup holds
    "overlay" is extracted like any other, and so is a heading's parent
    whose markup holds "popup": the landmark loop tests four of the five
    words and the heading loop three. *)
Theorem denylisted_regions_extracted :
  (∃ s, _extract_sections urljoin_rooted seed overlay_page = Ok [s] ∧
        sec_id s = "section-0" ∧
        Py.contains "overlay" (Py.lower (rawHtml s)) = true ∧
        Py.any_in denylist (Py.lower (rawHtml s)) = true) ∧
  (∃ s, _extract_sections urljoin_rooted seed popup_page = Ok [s] ∧
        sec_id s = "unknown-0" ∧
        Py.contains "popup" (Py.lower (rawHtml s)) = true ∧
        Py.any_in denylist (Py.lower (rawHtml s)) = true).
Proof. split; eexists; vm_compute; repeat split; reflexivity. Qed.

(** ** Section ids *)







Lemma extract_regions_numbered urljoin source_url regions k ss :
  extract_regions urljoin source_url regions k = Ok ss →
  numbered_from k ss ∧ Forall within_caps ss.
Proof.
  revert k ss. induction regions as [|r rest IH]; intros k ss; simpl.
  - intros [= <-]. split; [intros i s; by rewrite lookup_nil|constructor].
  - destruct (_extract_section_from_element _ _ _ _) as [o|e] eqn:He; simpl; [|done].
    destruct (extract_section_inv _ _ _ _ _ He) as (_ & _ & s & -> & _ & _ & Hid & Hty & _).
    destruct (extract_regions _ _ rest _) as [ss'|e] eqn:Hr; simpl; [|done].
    intros [= <-]. destruct (IH _ _ Hr) as [Hnum Hcaps]. split.
    + intros [|i] s'; simpl.
      * intros [= <-]. by rewrite Nat.add_0_r, Hid, Hty.
      * intros Hs'. rewrite (Hnum _ _ Hs'). do 3 f_equal. lia.
    + constructor; [|done].
      by apply (section_caps _ _ _ _ _ He).
Qed.

(** ** The interaction log *)

Lemma log_within_refl s : log_within 0 0 0 s s.
Proof. unfold log_within. repeat split; lia. Qed.

Lemma log_within_trans a b c a' b' c' s1 s2 s3 :
  log_within a b c s1 s2 → log_within a' b' c' s2 s3 →
  log_within (a + a') (b + b') (c + c') s1 s3.
Proof. unfold log_within. intros (?&?&?&?) (?&?&?&?). repeat split; lia. Qed.

Lemma log_within_weaken a b c a' b' c' s s' :
  log_within a b c s s' → a ≤ a' → b ≤ b' → c ≤ c' → log_within a' b' c' s s'.
Proof. unfold log_within. intros (?&?&?&?) ? ? ?. repeat split; lia. Qed.

Lemma quiet_weaken {A} a b c a' b' c' (m : M A) :
  quiet a b c m → a ≤ a' → b ≤ b' → c ≤ c' → quiet a' b' c' m.
Proof. intros H ? ? ? s. destruct (H s). split; [|done]. by eapply log_within_weaken. Qed.

Lemma quiet_ret {A} (x : A) : quiet 0 0 0 (mret x : M A).
Proof. intros s. split; [apply log_within_refl|done]. Qed.

Lemma quiet_bind {A B} a b c a' b' c' (m : M A) (k : A → M B) :
  quiet a b c m → (∀ x, quiet a' b' c' (k x)) →
  quiet (a + a') (b + b') (c + c') (m ≫= k).
Proof.
  intros Hm Hk s. unfold mbind, M_bind. destruct (Hm s) as [Hl He].
  destruct (m s) as [[x|e] s1]; simpl in *.
  - destruct (Hk x s1) as [Hl' He']. split; [by eapply log_within_trans|congruence].
  - split; [|done]. eapply log_within_weaken; [done|lia..].
Qed.

Lemma quiet_try_except {A} a b c a' b' c' (m : M A) (h : string → M A) :
  quiet a b c m → (∀ e, quiet a' b' c' (h e)) →
  quiet (a + a') (b + b') (c + c') (try_except m h).
Proof.
  intros Hm Hh s. unfold try_except. destruct (Hm s) as [Hl He].
  destruct (m s) as [[x|e] s1]; simpl in *.
  - split; [|done]. eapply log_within_weaken; [done|lia..].
  - destruct (Hh e s1) as [Hl' He']. split; [by eapply log_within_trans|congruence].
Qed.

Lemma quiet_attempt {A} a b c (m : M A) : quiet a b c m → quiet a b c (attempt m).
Proof.
  intros Hm. unfold attempt.
  eapply quiet_weaken; [eapply quiet_try_except|..].
  - eapply quiet_bind; [exact Hm|]. intros x. apply quiet_ret.
  - intros e. apply quiet_ret.
  - lia.
  - lia.
  - lia.
Qed.

Lemma attempt_returns {A} (m : M A) s : ∃ o, (attempt m s).1 = Ok o.
Proof.
  unfold attempt, try_except, mbind, M_bind, mret, M_ret.
  destruct (m s) as [[x|e] s1]; simpl; eauto.
Qed.

Lemma quiet_call {A} (op : nat → result A) : quiet 0 0 0 (call op).
Proof. intros s. unfold log_within. simpl. repeat split; lia. Qed.

Lemma quiet_lift {A} (r : result A) : quiet 0 0 0 (lift r).
Proof. intros s. split; [apply log_within_refl|done]. Qed.

Lemma quiet_raise {A} (e : string) : quiet 0 0 0 (raise e : M A).
Proof. intros s. split; [apply log_within_refl|done]. Qed.

Lemma quiet_get_state : quiet 0 0 0 get_state.
Proof. intros s. split; [apply log_within_refl|done]. Qed.

Lemma quiet_wait ms : quiet 0 0 0 (wait_for_timeout ms).
Proof. apply quiet_ret. Qed.

Lemma quiet_append_click sel : quiet 1 0 0 (append_click sel).
Proof. intros s. unfold log_within. simpl. rewrite length_app. simpl. repeat split; lia. Qed.

Lemma quiet_increment_scrolls : quiet 0 1 0 increment_scrolls.
Proof. intros s. unfold log_within. simpl. repeat split; lia. Qed.

Lemma quiet_append_page u : quiet 0 0 1 (append_page u).
Proof. intros s. unfold log_within. simpl. rewrite length_app. simpl. repeat split; lia. Qed.

Lemma quiet_add_visited u : quiet 0 0 0 (add_visited u).
Proof. intros s. unfold log_within. simpl. repeat split; lia. Qed.

Create HintDb quiet_steps.
#[local] Hint Resolve quiet_ret quiet_call quiet_lift quiet_raise quiet_get_state
  quiet_wait quiet_append_click quiet_increment_scrolls quiet_append_page
  quiet_add_visited : quiet_steps.

(** One sequencing step of a [quiet] proof. *)
Ltac quiet_seq :=
  repeat first
    [ solve [eauto with quiet_steps]
    | eapply quiet_bind; [|intros ?] ].

Lemma first_success_returns body selectors s :
  (first_success body selectors s).1 = Ok tt.
Proof.
  revert s. induction selectors as [|sel rest IH]; intros s; [done|].
  cbn [first_success]. unfold mbind, M_bind.
  destruct (attempt_returns (body sel) s) as [o Ho].
  destruct (attempt (body sel) s) as [r s1]. simpl in Ho. subst r.
  destruct o as [[|]|]; [done|apply IH..].
Qed.

Lemma first_success_quiet a b c body selectors :
  (∀ sel, quiet_unless_break a b c (body sel)) →
  quiet a b c (first_success body selectors).
Proof.
  intros Hbody. induction selectors as [|sel rest IH]; intros s.
  - split; [|done]. eapply log_within_weaken; [apply log_within_refl|lia..].
  - cbn [first_success]. unfold attempt, try_except, mbind, M_bind, mret, M_ret.
    destruct (Hbody sel s) as [[Hl He] Hno].
    destruct (body sel s) as [[[|]|e] s1]; simpl in *.
    + done.
    + destruct (IH s1) as [Hl' He']. split; [|congruence].
      eapply log_within_weaken; [eapply log_within_trans; [apply Hno; congruence|exact Hl']|lia..].
    + destruct (IH s1) as [Hl' He']. split; [|congruence].
      eapply log_within_weaken; [eapply log_within_trans; [apply Hno; congruence|exact Hl']|lia..].
Qed.

Lemma quiet_logs {A} a b c P (m : M A) : quiet a b c m → logs a b c P m.
Proof.
  intros H s. destruct (H s) as [Hl He]. split; [done|].
  exists []. by rewrite app_nil_r.
Qed.

Lemma logs_weaken {A} a b c a' b' c' (P Q : ErrorRecord → Prop) (m : M A) :
  logs a b c P m → a ≤ a' → b ≤ b' → c ≤ c' → (∀ r, P r → Q r) → logs a' b' c' Q m.
Proof.
  intros H ? ? ? HPQ s. destruct (H s) as [Hl (news & He & Hn)]. split.
  - by eapply log_within_weaken.
  - exists news. split; [done|]. eapply Forall_impl; eauto.
Qed.

Lemma logs_bind {A B} a b c a' b' c' P (m : M A) (k : A → M B) :
  logs a b c P m → (∀ x, logs a' b' c' P (k x)) →
  logs (a + a') (b + b') (c + c') P (m ≫= k).
Proof.
  intros Hm Hk s. unfold mbind, M_bind. destruct (Hm s) as [Hl (n1 & He & Hn1)].
  destruct (m s) as [[x|e] s1]; simpl in *.
  - destruct (Hk x s1) as [Hl' (n2 & He' & Hn2)]. split; [by eapply log_within_trans|].
    exists (n1 ++ n2). rewrite He', He, app_assoc. split; [done|by apply Forall_app].
  - split; [eapply log_within_weaken; [done|lia..]|]. by exists n1.
Qed.

Lemma logs_try_except {A} a b c a' b' c' P (m : M A) (h : string → M A) :
  logs a b c P m → (∀ e, logs a' b' c' P (h e)) →
  logs (a + a') (b + b') (c + c') P (try_except m h).
Proof.
  intros Hm Hh s. unfold try_except. destruct (Hm s) as [Hl (n1 & He & Hn1)].
  destruct (m s) as [[x|e] s1]; simpl in *.
  - split; [eapply log_within_weaken; [done|lia..]|]. by exists n1.
  - destruct (Hh e s1) as [Hl' (n2 & He' & Hn2)]. split; [by eapply log_within_trans|].
    exists (n1 ++ n2). rewrite He', He, app_assoc. split; [done|by apply Forall_app].
Qed.

Lemma logs_append_error P record : P record → logs 0 0 0 P (append_error record).
Proof.
  intros HP s. split; [unfold log_within; simpl; repeat split; lia|].
  exists [record]. split; [done|]. by constructor.
Qed.

(** *** The steps of the interaction driver *)

Section RenderLog.

Variable w : World.

Lemma click_first_tab_quiet tab : quiet 1 0 0 (click_first_tab w tab).
Proof.
  unfold click_first_tab.
  eapply quiet_weaken; [quiet_seq|simpl; lia..].
Qed.

Lemma click_load_more_quiet selector : quiet_unless_break 1 0 0 (click_load_more w selector).
Proof.
  intros s. unfold click_load_more, call, append_click, set_interactions, get_state,
    wait_for_timeout, mbind, M_bind, mret, M_ret, log_within; simpl.
  destruct (query_selector (browser w) selector (clock s)) as [[button|]|e]; simpl;
    [destruct (click (browser w) button (S (clock s))) as [[]|e]; simpl| |];
    rewrite ?length_app; simpl; repeat split; try lia; try congruence.
Qed.

Lemma interactions_body_quiet : quiet 2 0 0 (interactions_body w).
Proof.
  unfold interactions_body.
  eapply quiet_weaken with (a := 0 + (1 + 1)) (b := 0 + (0 + 0)) (c := 0 + (0 + 0));
    [|simpl; lia..].
  eapply quiet_bind; [apply quiet_call|]. intros tabs.
  eapply quiet_bind.
  - destruct tabs as [|tab tabs].
    + eapply quiet_weaken; [apply quiet_ret|lia..].
    + eapply quiet_weaken with (a := 1 + 0) (b := 0 + 0) (c := 0 + 0); [|lia..].
      eapply quiet_bind; [apply quiet_attempt, click_first_tab_quiet|].
      intros ?. apply quiet_ret.
  - intros _. apply first_success_quiet, click_load_more_quiet.
Qed.


Lemma handle_interactions_logs :
  logs 2 0 0 (λ r, phase r = "interaction") (_handle_interactions w).
Proof.
  unfold _handle_interactions.
  eapply logs_weaken with (P := λ r, phase r = "interaction");
    [eapply logs_try_except|..].
  - apply quiet_logs, interactions_body_quiet.
  - intros e. by apply logs_append_error.
  - lia.
  - lia.
  - lia.
  - done.
Qed.

Lemma follow_next_link_quiet selector :
  quiet_unless_break 0 0 1 (follow_next_link w selector).
Proof.
  intros s. unfold follow_next_link, call, append_page, add_visited, set_interactions,
    get_state, lift, mbind, M_bind, mret, M_ret, log_within; simpl.
  destruct (query_selector (browser w) selector (clock s)) as [[next_link|]|e]; simpl;
    [|repeat split; try lia; congruence..].
  destruct (get_attribute (browser w) next_link "href" (S (clock s))) as [[href|]|e]; simpl;
    [|repeat split; try lia; congruence..].
  destruct (Py.truthy href); simpl; [|repeat split; try lia; congruence].
  destruct (urljoin w (url w) href) as [next_url|e]; simpl;
    [|repeat split; try lia; congruence].
  destruct (bool_decide _ && _); simpl; [|repeat split; try lia; congruence].
  destruct (click (browser w) next_link (S (S (clock s)))) as [[]|e]; simpl;
    [|repeat split; try lia; congruence].
  destruct (wait_for_selector (browser w) "body" (S (S (S (clock s))))) as [[]|e]; simpl;
    rewrite ?length_app; simpl; repeat split; try lia; congruence.
Qed.

Lemma scroll_once_quiet i : quiet 0 1 (if i =? 0 then 1 else 0) (scroll_once w i).
Proof.
  unfold scroll_once.
  eapply quiet_weaken.
  - do 6 (eapply quiet_bind; [solve [eauto with quiet_steps]|intros ?]).
    instantiate (1 := if i =? 0 then 1 else 0).
    instantiate (1 := 0). instantiate (1 := 0).
    destruct (_ && _) eqn:Hc.
    + apply andb_true_iff in Hc as [_ ->].
      apply first_success_quiet, follow_next_link_quiet.
    + eapply quiet_weaken; [apply quiet_ret|lia..].
  - simpl; lia.
  - simpl; lia.
  - simpl; lia.
Qed.

(** The turns with [i = 0] among those still to run. *)
Lemma scroll_loop_quiet range :
  quiet 0 (length range) (length (List.filter (λ i, i =? 0) range)) (scroll_loop w range).
Proof.
  induction range as [|i rest IH]; cbn [scroll_loop].
  - apply quiet_ret.
  - eapply quiet_weaken; [eapply quiet_bind; [apply scroll_once_quiet|intros _; exact IH]|..].
    + lia.
    + simpl; lia.
    + cbn [List.filter]. destruct (i =? 0); simpl; lia.
Qed.

Lemma more_scrolling_quiet n : quiet 0 n 0 (more_scrolling w n).
Proof.
  induction n as [|n IH]; cbn [more_scrolling].
  - apply quiet_ret.
  - eapply quiet_weaken.
    + do 3 (eapply quiet_bind; [solve [eauto with quiet_steps]|intros ?]). exact IH.
    + simpl; lia.
    + simpl; lia.
    + simpl; lia.
Qed.

Lemma scroll_body_quiet : quiet 0 3 1 (scroll_body w).
Proof.
  intros s. unfold scroll_body, mbind, M_bind, get_state.
  destruct (scroll_loop_quiet (seq 0 3) s) as [Hl He].
  destruct (scroll_loop w (seq 0 3) s) as [[[]|e] s1]; simpl in *; [|done].
  destruct (_ && _) eqn:Hc; [|done].
  apply andb_true_iff in Hc as [_ Hc]. apply Nat.ltb_lt in Hc.
  destruct (more_scrolling_quiet (3 - scrolls (interactions s1)) s1) as [Hl' He'].
  split; [|congruence].
  unfold log_within in *. repeat split; lia.
Qed.


Lemma handle_scroll_logs :
  logs 0 3 1 (λ r, phase r = "scroll") (_handle_scroll_and_pagination w).
Proof.
  unfold _handle_scroll_and_pagination.
  eapply logs_weaken with (P := λ r, phase r = "scroll");
    [eapply logs_try_except|..].
  - apply quiet_logs, scroll_body_quiet.
  - intros e. by apply logs_append_error.
  - lia.
  - lia.
  - lia.
  - done.
Qed.

End RenderLog.

(** *** [_js_scrape] *)

Section JsScrape.

Variable w : World.

Lemma bind_ok_inv {A B} (m : M A) (k : A → M B) s b s' :
  (m ≫= k) s = (Ok b, s') → ∃ a s1, m s = (Ok a, s1) ∧ k a s1 = (Ok b, s').
Proof.
  unfold mbind, M_bind. destruct (m s) as [[a|e] s1]; [eauto|done].
Qed.

Lemma js_body_logs : logs 2 3 2 render_phase (js_body w).
Proof.
  unfold js_body.
  eapply logs_weaken with (P := render_phase)
    (a := 0 + (0 + (0 + (0 + (2 + (0 + 0))))))
    (b := 0 + (0 + (0 + (0 + (0 + (3 + 0))))))
    (c := 0 + (0 + (1 + (0 + (0 + (1 + 0)))))); [|simpl; lia..|done].
  eapply logs_bind; [apply quiet_logs, quiet_call|intros _].
  eapply logs_bind; [apply quiet_logs, quiet_add_visited|intros _].
  eapply logs_bind; [apply quiet_logs, quiet_append_page|intros _].
  eapply logs_bind; [apply quiet_logs, quiet_wait|intros _].
  eapply logs_bind;
    [eapply logs_weaken; [apply handle_interactions_logs|lia..|]|intros _].
  { intros r Hr. right. by left. }
  eapply logs_bind;
    [eapply logs_weaken; [apply handle_scroll_logs|lia..|]|intros _].
  { intros r Hr. right. by right. }
  apply quiet_logs.
  eapply quiet_weaken with (a := 0 + (0 + (0 + (0 + (0 + 0)))))
    (b := 0 + (0 + (0 + (0 + (0 + 0))))) (c := 0 + (0 + (0 + (0 + (0 + 0)))));
    [|simpl; lia..].
  quiet_seq.
Qed.

Lemma js_body_result s r s' :
  js_body w s = (Ok r, s') →
  ∃ sections parser,
    r = Some {| js_sections := sections; js_interactions := interactions s';
                js_errors := [] |} ∧
    _extract_sections (urljoin w) (url w) parser = Ok sections.
Proof.
  unfold js_body. intros H.
  do 6 (apply bind_ok_inv in H as (? & ? & _ & H)).
  apply bind_ok_inv in H as (html & s1 & _ & H).
  apply bind_ok_inv in H as (parser & s2 & _ & H).
  apply bind_ok_inv in H as (sections & s3 & Hs & H).
  apply bind_ok_inv in H as ([] & s4 & _ & H).
  apply bind_ok_inv in H as (s5 & s6 & Hg & H).
  unfold get_state in Hg. injection Hg as <- <-.
  unfold mret, M_ret in H. injection H as <- <-.
  exists sections, parser. split; [done|].
  unfold lift in Hs. by injection Hs as -> _.
Qed.

(** What one run of [_js_scrape] does to the scraper object. *)
Lemma js_scrape_log s :
  let s' := (_js_scrape w s).2 in
  length (clicks (interactions s')) ≤ length (clicks (interactions s)) + 2 ∧
  scrolls (interactions s') ≤ scrolls (interactions s) + 3 ∧
  length (pages (interactions s')) ≤ length (pages (interactions s)) + 2 ∧
  js_scrapes s' = S (js_scrapes s) ∧
  ∃ news, errors s' = errors s ++ news ∧ Forall render_phase news.
Proof.
  assert (logs 2 3 2 render_phase
            (if negb (PLAYWRIGHT_AVAILABLE w)
             then append_error playwright_missing;; mret None
             else lift (launch (browser w));;
                  try_except (js_body w) (λ e, call (close (browser w));; raise e)))
    as Hrest.
  { destruct (PLAYWRIGHT_AVAILABLE w); simpl.
    - eapply logs_weaken with (P := render_phase) (a := 0 + (2 + (0 + 0)))
        (b := 0 + (3 + (0 + 0))) (c := 0 + (2 + (0 + 0))); [|simpl; lia..|done].
      eapply logs_bind; [apply quiet_logs, quiet_lift|intros _].
      eapply logs_try_except; [apply js_body_logs|intros e].
      apply quiet_logs. eapply quiet_bind; [apply quiet_call|intros _; apply quiet_raise].
    - eapply logs_weaken with (P := render_phase) (a := 0 + 0) (b := 0 + 0) (c := 0 + 0);
        [|lia..|done].
      eapply logs_bind; [apply logs_append_error; by left|intros _].
      apply quiet_logs, quiet_ret. }
  set (s0 := {| visited_urls := visited_urls s; interactions := interactions s;
                errors := errors s; js_scrapes := S (js_scrapes s); clock := clock s |}).
  cbv zeta.
  change (_js_scrape w s) with
    ((if negb (PLAYWRIGHT_AVAILABLE w)
      then append_error playwright_missing;; mret None
      else lift (launch (browser w));;
           try_except (js_body w) (λ e, call (close (browser w));; raise e)) s0).
  destruct (Hrest s0) as [Hl He].
  unfold log_within in Hl. simpl in Hl, He. split_and!; try lia. done.
Qed.

Lemma js_scrape_result s r s' :
  _js_scrape w s = (Ok (Some r), s') →
  js_interactions r = interactions s' ∧ js_errors r = [] ∧
  ∃ parser, _extract_sections (urljoin w) (url w) parser = Ok (js_sections r).
Proof.
  unfold _js_scrape, mbind at 1, M_bind at 1. cbn [enter_js_scrape].
  destruct (PLAYWRIGHT_AVAILABLE w); simpl.
  - intros H. apply bind_ok_inv in H as ([] & s1 & _ & H).
    unfold try_except in H.
    destruct (js_body w s1) as [[o|e] s2] eqn:Hb.
    + injection H as -> ->.
      destruct (js_body_result _ _ _ Hb) as (sections & parser & [= ->] & Hp).
      simpl. eauto.
    + apply bind_ok_inv in H as (? & ? & _ & H). done.
  - intros H. apply bind_ok_inv in H as ([] & s1 & _ & H). done.
Qed.

End JsScrape.

(** ** The orchestration *)

Arguments _js_scrape : simpl never.
Arguments append_error : simpl never.
Arguments total_text : simpl never.

Section ScrapeRuns.

Variable w : World.

Lemma static_fetch_run s :
  _static_fetch w s =
  match http_get w with
  | Ok html => (Ok (Some html), s)
  | Raise e => (Ok None, (append_error (fetch_failed e) s).2)
  end.
Proof. unfold _static_fetch, try_except, lift, mbind, M_bind. by destruct (http_get w). Qed.

Lemma set_interactions_same s : set_interactions (interactions s) s = (Ok tt, s).
Proof. by destruct s. Qed.

Lemma extend_errors_nil s : extend_errors [] s = (Ok tt, s).
Proof. destruct s. unfold extend_errors. simpl. by rewrite app_nil_r. Qed.

(** The assignments after a successful [_js_scrape] leave the scraper as
    it is: the log handed back is its own, and no error comes with it. *)
Lemma adopt_js_result s r s2 :
  _js_scrape w s = (Ok (Some r), s2) →
  (set_interactions (js_interactions r);; extend_errors (js_errors r)) s2 = (Ok tt, s2).
Proof.
  intros H. destruct (js_scrape_result _ _ _ _ H) as (Hi & He & _).
  unfold mbind, M_bind. by rewrite Hi, set_interactions_same, He, extend_errors_nil.
Qed.

Lemma render_after_static_run secs s :
  render_after_static w secs s =
  match _js_scrape w s with
  | (Ok (Some r), s2) =>
      (Ok (match js_sections r with [] => secs | _ :: _ => js_sections r end), s2)
  | (Ok None, s2) => (Ok secs, s2)
  | (Raise e, s2) => (Ok secs, (append_error (render_failed e) s2).2)
  end.
Proof.
  unfold render_after_static, try_except. unfold mbind at 1, M_bind at 1.
  destruct (_js_scrape w s) as [[[r|]|e] s2] eqn:Hjs; [|done..].
  destruct (js_sections r) as [|x l] eqn:Hsecs; [done|].
  pose proof (adopt_js_result _ _ _ Hjs) as Ha.
  unfold mbind, M_bind in *.
  destruct (set_interactions (js_interactions r) s2) as [[[]|e] s3]; [|done].
  destruct (extend_errors (js_errors r) s3) as [[[]|e] s4]; [|done].
  by injection Ha as ->.
Qed.

Lemma render_without_static_run s :
  render_without_static w s =
  match _js_scrape w s with
  | (Ok (Some r), s2) => (Ok (js_sections r), s2)
  | (Ok None, s2) => (Ok [], s2)
  | (Raise e, s2) => (Ok [], (append_error (render_failed e) s2).2)
  end.
Proof.
  unfold render_without_static, try_except. unfold mbind at 1, M_bind at 1.
  destruct (_js_scrape w s) as [[[r|]|e] s2] eqn:Hjs; [|done..].
  pose proof (adopt_js_result _ _ _ Hjs) as Ha.
  unfold mbind, M_bind in *.
  destruct (set_interactions (js_interactions r) s2) as [[[]|e] s3]; [|done].
  destruct (extend_errors (js_errors r) s3) as [[[]|e] s4]; [|done].
  by injection Ha as ->.
Qed.

(** The three ways a scrape goes, by the outcome of the static pass. *)
Lemma scrape_sections_run s :
  let s1 := (_static_fetch w s).2 in
  scrape_sections w s =
  match static_sections w with
  | Raise e => (Raise e, s1)
  | Ok secs =>
      if escalates w secs then
        match _js_scrape w s1 with
        | (Ok (Some r), s2) =>
            (Ok (match js_sections r with [] => secs | _ :: _ => js_sections r end), s2)
        | (Ok None, s2) => (Ok secs, s2)
        | (Raise e, s2) => (Ok secs, (append_error (render_failed e) s2).2)
        end
      else (Ok secs, s1)
  end.
Proof.
  cbv zeta. unfold scrape_sections, static_sections, escalates, static_html_truthy.
  unfold mbind at 1, M_bind at 1. rewrite static_fetch_run.
  destruct (http_get w) as [[|c html]|e]; cbn [snd negb orb Py.truthy].
  - change (total_text [] <? 500) with true. cbn [orb].
    rewrite render_without_static_run.
    destruct (_js_scrape w s) as [[[r|]|e] s2]; [|done..].
    by destruct (js_sections r).
  - unfold lift, mbind, M_bind, result_bind.
    destruct (parse_html w (String c html)) as [parser|e]; [|done].
    destruct (_extract_sections (urljoin w) (url w) parser) as [secs|e]; [|done].
    destruct (total_text secs <? 500); [|done].
    apply render_after_static_run.
  - change (total_text [] <? 500) with true. cbn [orb].
    rewrite render_without_static_run.
    destruct (_js_scrape w _) as [[[r|]|e'] s2]; [|done..].
    by destruct (js_sections r).
Qed.

Lemma scrape_run s :
  scrape w s =
  match scrape_sections w s with
  | (Ok working, st) =>
      (Ok {| env_url := url w;
             env_sections := match working with
                             | [] => [sentinel (url w)]
                             | _ :: _ => working
                             end;
             env_interactions := interactions st;
             env_errors := errors st |}, st)
  | (Raise e, st) => (Raise e, st)
  end.
Proof.
  unfold scrape, mbind, M_bind. by destruct (scrape_sections w s) as [[working|e] st].
Qed.

Lemma escalates_iff secs :
  static_sections w = Ok secs →
  escalates w secs = true ↔ raised (http_get w) = true ∨ total_text secs < 500.
Proof.
  unfold static_sections, escalates, static_html_truthy.
  destruct (http_get w) as [[|c html]|e]; simpl.
  - intros [= <-]. simpl. split; [right; unfold total_text; simpl; lia|done].
  - intros _. rewrite Nat.ltb_lt. split; [by right|by intros [|]].
  - intros [= <-]. simpl. split; [by left|done].
Qed.

End ScrapeRuns.

(** ** The envelope *)

Section ScrapeFacts.

Variable w : World.

Lemma static_fetch_state s :
  let s1 := (_static_fetch w s).2 in
  interactions s1 = interactions s ∧ js_scrapes s1 = js_scrapes s ∧
  errors s1 = errors s ++ match http_get w with
                          | Raise e => [fetch_failed e]
                          | Ok _ => []
                          end.
Proof.
  cbv zeta. rewrite static_fetch_run. destruct (http_get w) as [html|e]; simpl.
  - by rewrite app_nil_r.
  - done.
Qed.

(** The final state of a scrape: that of the static fetch, or that of the
    one run of [_js_scrape], with a render record more when it raised. *)
Lemma scrape_final_state :
  let s1 := (_static_fetch w init).2 in
  let st := (scrape w init).2 in
  (st = s1 ∧ ∀ secs, static_sections w = Ok secs → escalates w secs = false) ∨
  (∃ secs, static_sections w = Ok secs ∧ escalates w secs = true ∧
     interactions st = interactions (_js_scrape w s1).2 ∧
     js_scrapes st = js_scrapes (_js_scrape w s1).2 ∧
     errors st = errors (_js_scrape w s1).2 ++
                 match (_js_scrape w s1).1 with
                 | Raise e => [render_failed e]
                 | Ok _ => []
                 end).
Proof.
  cbv zeta. rewrite scrape_run. pose proof (scrape_sections_run w init) as Hrun.
  cbv zeta in Hrun. rewrite Hrun. clear Hrun.
  destruct (static_sections w) as [secs|e]; [|left; split; [done|congruence]].
  destruct (escalates w secs) eqn:Hesc.
  - right. exists secs. split; [done|]. split; [done|].
    destruct (_js_scrape w _) as [[[r|]|e] s2]; simpl; rewrite ?app_nil_r; done.
  - left. split; [done|]. by intros ? [= <-].
Qed.

Lemma scrape_log :
  let st := (scrape w init).2 in
  length (clicks (interactions st)) ≤ 2 ∧
  scrolls (interactions st) ≤ 3 ∧
  length (pages (interactions st)) ≤ 2 ∧
  js_scrapes st ≤ 1.
Proof.
  cbv zeta. pose proof (static_fetch_state init) as (Hi & Hj & _). cbv zeta in *.
  destruct scrape_final_state as [[-> _]|(secs & _ & _ & Hi' & Hj' & _)].
  - rewrite Hi, Hj. simpl. lia.
  - rewrite Hi', Hj'.
    destruct (js_scrape_log w (_static_fetch w init).2) as (Hc & Hs & Hp & Hjs & _).
    rewrite Hi, Hj in *. simpl in *. lia.
Qed.

Lemma scrape_js_count secs :
  static_sections w = Ok secs →
  js_scrapes (scrape w init).2 = if escalates w secs then 1 else 0.
Proof.
  intros Hs. pose proof (static_fetch_state init) as (_ & Hj & _). cbv zeta in *.
  destruct scrape_final_state as [[-> Hno]|(secs' & Hs' & Hesc & _ & Hj' & _)].
  - by rewrite (Hno _ Hs), Hj.
  - rewrite Hs in Hs'. injection Hs' as <-. rewrite Hesc, Hj'.
    destruct (js_scrape_log w (_static_fetch w init).2) as (_ & _ & _ & -> & _).
    by rewrite Hj.
Qed.

(** The sections before the last test are those of the static pass or
    those of the render pass. *)
Lemma working_sections secs :
  static_sections w = Ok secs →
  ∃ working st,
    scrape_sections w init = (Ok working, st) ∧
    (working = secs ∨
     working = sections_of_js (_js_scrape w (_static_fetch w init).2).1).
Proof.
  intros Hs. pose proof (scrape_sections_run w init) as Hrun. cbv zeta in Hrun.
  rewrite Hs in Hrun. rewrite Hrun.
  destruct (escalates w secs); [|by eauto].
  destruct (_js_scrape w _) as [[[r|]|e] s2]; simpl; [|by eauto..].
  destruct (js_sections r) eqn:Hr; [by eauto|]. rewrite <- Hr. eauto.
Qed.

Lemma static_sections_numbered secs :
  static_sections w = Ok secs → numbered_from 0 secs ∧ Forall within_caps secs.
Proof.
  unfold static_sections.
  assert (numbered_from 0 [] ∧ Forall within_caps []) as Hnil.
  { split; [intros i s; by rewrite lookup_nil|constructor]. }
  destruct (http_get w) as [html|e]; [|by intros [= <-]].
  destruct (Py.truthy html); [|by intros [= <-]].
  destruct (parse_html w html) as [parser|e]; simpl; [|done].
  rewrite extract_sections_by_tier. apply extract_regions_numbered.
Qed.

Lemma js_sections_numbered s :
  numbered_from 0 (sections_of_js (_js_scrape w s).1) ∧
  Forall within_caps (sections_of_js (_js_scrape w s).1).
Proof.
  assert (numbered_from 0 [] ∧ Forall within_caps []) as Hnil.
  { split; [intros i x; by rewrite lookup_nil|constructor]. }
  destruct (_js_scrape w s) as [[[r|]|e] s2] eqn:Hjs; simpl; [|done..].
  destruct (js_scrape_result _ _ _ _ Hjs) as (_ & _ & parser & Hp).
  rewrite extract_sections_by_tier in Hp. by apply extract_regions_numbered in Hp.
Qed.

(** Every envelope: its sections are the sentinel alone, or the sections
    of one segmentation, of which there is at least one. *)
Lemma envelope_sections env st :
  scrape w init = (Ok env, st) →
  env_url env = url w ∧
  env_interactions env = interactions st ∧
  env_errors env = errors st ∧
  ∃ secs working,
    static_sections w = Ok secs ∧
    (working = secs ∨
     working = sections_of_js (_js_scrape w (_static_fetch w init).2).1) ∧
    env_sections env = match working with
                       | [] => [sentinel (url w)]
                       | _ :: _ => working
                       end.
Proof.
  rewrite scrape_run. pose proof (scrape_sections_run w init) as Hrun. cbv zeta in Hrun.
  destruct (static_sections w) as [secs|e] eqn:Hs.
  - destruct (working_sections _ Hs) as (working & st' & Hw & Hor).
    rewrite Hw. intros [= <- <-]. simpl. split_and!; try done.
    by exists secs, working.
  - rewrite Hrun. done.
Qed.

End ScrapeFacts.

(** * The claims about a whole scrape *)

(** C1. Given that the static pass returned (it gave the sections [secs],
    none when the fetch failed or the body was empty), [_js_scrape] is
    entered, once, exactly when the static fetch failed or the texts of
    [secs] add up to fewer than 500 characters; with 500 or more it is
    never entered. *)
Theorem render_path_iff_fetch_failed_or_sparse (w : World) (secs : list Section) :
  static_sections w = Ok secs →
  (0 < js_scrapes (scrape w init).2 ↔
   raised (http_get w) = true ∨ total_text secs < 500) ∧
  js_scrapes (scrape w init).2 ≤ 1 ∧
  (500 ≤ total_text secs → js_scrapes (scrape w init).2 = 0).
Proof.
  intros Hs. pose proof (escalates_iff w secs Hs) as Hiff.
  rewrite (scrape_js_count w secs Hs).
  destruct (escalates w secs); split_and!; try lia.
  - split; [intros _; by apply Hiff|lia].
  - intros Hge. destruct Hiff as [Hiff _]. destruct (Hiff eq_refl) as [Hr|Hlt]; [|lia].
    unfold static_sections in Hs. destruct (http_get w); [done|].
    injection Hs as <-. unfold total_text in Hge. simpl in Hge. lia.
  - split; [lia|]. intros H. apply Hiff in H. done.
Qed.

Lemma render_path_iff_witness :
  ∃ secs,
    static_sections welcome_world = Ok secs ∧
    total_text secs = 42 ∧
    (0 < js_scrapes (scrape welcome_world init).2 ↔
     raised (http_get welcome_world) = true ∨ total_text secs < 500).
Proof.
  eassert (static_sections welcome_world = Ok _) as Hs by (vm_compute; reflexivity).
  eexists. split; [exact Hs|]. split; [vm_compute; reflexivity|].
  exact (proj1 (render_path_iff_fetch_failed_or_sparse welcome_world _ Hs)).
Defined.

(** C6. Every envelope that is returned holds at least one section; and
    when the static pass and the render pass both gave no section, it
    holds the sentinel alone: id "empty-0", type "unknown", label
    "No content found", empty content, empty [rawHtml], not truncated. *)
Theorem envelope_never_empty (w : World) (env : Envelope) (st : Scraper) :
  scrape w init = (Ok env, st) →
  env_sections env ≠ [] ∧
  (static_sections w = Ok [] →
   sections_of_js (_js_scrape w (_static_fetch w init).2).1 = [] →
   env_sections env =
     [{| sec_id := "empty-0"; sec_type := "unknown"; label := "No content found";
         sourceUrl := url w;
         content := {| headings := []; text := ""; links := []; images := [];
                       lists := []; tables := [] |};
         rawHtml := ""; truncated := false |}]).
Proof.
  intros Hrun.
  destruct (envelope_sections w env st Hrun) as (_ & _ & _ & secs & working & Hs & Hw & ->).
  split.
  - by destruct working.
  - intros Hs' Hjs. rewrite Hs in Hs'. injection Hs' as ->.
    destruct Hw as [->| ->]; [done|]. by rewrite Hjs.
Qed.

Lemma envelope_never_empty_witness :
  ∃ env st,
    scrape offline_world init = (Ok env, st) ∧
    env_sections env ≠ [] ∧
    env_sections env = [sentinel seed].
Proof.
  eassert (scrape offline_world init = (Ok _, _)) as Hrun by (vm_compute; reflexivity).
  eexists _, _. split; [exact Hrun|].
  pose proof (envelope_never_empty offline_world _ _ Hrun) as [Hne Hsent].
  split; [exact Hne|]. apply Hsent; vm_compute; reflexivity.
Defined.





(** On [busy_world] every bound on clicks and scrolls is reached. *)
Lemma busy_world_log :
  interactions (scrape busy_world init).2 =
  {| clicks := [tab_click; has_text "button" "Load more"];
     scrolls := 3;
     pages := [seed; seed +:+ "/page/2"] |}.
Proof. vm_compute. reflexivity. Qed.

(** C10. After any scrape the log holds at most 2 pages: the render path
    is entered at most once; it adds the seed, and then at most one page
    more, since only the turn [i = 0] of the scroll loop looks for a next
    link, and the loop over the link selectors stops at its first click. *)
Theorem pages_at_most_two (w : World) :
  length (pages (interactions (scrape w init).2)) ≤ 2 ∧
  js_scrapes (scrape w init).2 ≤ 1 ∧
  (∀ i, i ≠ 0 → quiet 0 1 0 (scroll_once w i)) ∧
  quiet 0 1 1 (scroll_once w 0) ∧
  quiet 0 0 1 (first_success (follow_next_link w) next_links) ∧
  quiet 0 3 1 (scroll_body w).
Proof.
  pose proof (scrape_log w) as (_ & _ & Hp & Hj). cbv zeta in *.
  split_and!; try done.
  - intros i Hi. pose proof (scroll_once_quiet w i) as H.
    by destruct i.
  - apply (scroll_once_quiet w 0).
  - apply first_success_quiet, follow_next_link_quiet.
  - apply scroll_body_quiet.
Qed.

(** ** Failures *)

Section Failures.

Variable w : World.



End Failures.



(** A landmark of the static page holds a link whose reference [urljoin]
    refuses: the exception leaves [scrape], and no error is recorded. *)
Lemma scrape_raises_on_refused_href :
  scrape bad_href_world init = (Raise "Invalid IPv6 URL", init).
Proof. vm_compute. reflexivity. Qed.

(** ** Further facts *)

(** Every section of a returned envelope keeps to the caps, the sentinel
    included. *)
Theorem envelope_sections_within_caps (w : World) (env : Envelope) (st : Scraper) :
  scrape w init = (Ok env, st) → Forall within_caps (env_sections env).
Proof.
  intros Hrun.
  destruct (envelope_sections w env st Hrun) as (_ & _ & _ & secs & working & Hs & Hw & ->).
  assert (Forall within_caps working) as Hcaps.
  { destruct Hw as [->| ->].
    - by apply (static_sections_numbered w).
    - apply (js_sections_numbered w). }
  destruct working; [|done].
  constructor; [apply sentinel_within_caps|constructor].
Qed.

Lemma envelope_sections_within_caps_witness :
  ∃ env st,
    scrape busy_world init = (Ok env, st) ∧ Forall within_caps (env_sections env).
Proof.
  eassert (scrape busy_world init = (Ok _, _)) as Hrun by (vm_compute; reflexivity).
  eexists _, _. split; [exact Hrun|].
  exact (envelope_sections_within_caps busy_world _ _ Hrun).
Defined.


(** * Further properties of a scrape *)

Section ScrapeOutcomes.

Variable w : World.

(** The error list of a scrape: the fetch record, if the fetch failed, and
    after it only records of the render path. *)
Theorem errors_fetch_first_then_render :
  ∃ rest,
    errors (scrape w init).2 = fetch_errors w ++ rest ∧
    Forall render_phase rest ∧
    (∀ env, (scrape w init).1 = Ok env → env_errors env = errors (scrape w init).2).
Proof.
  pose proof (static_fetch_state w init) as (_ & _ & He). cbv zeta in He. simpl in He.
  fold (fetch_errors w) in He.
  assert (∀ env, (scrape w init).1 = Ok env → env_errors env = errors (scrape w init).2)
    as Henv.
  { intros env H. destruct (scrape w init) as [r st] eqn:Hrun. simpl in *. subst r.
    by destruct (envelope_sections w env st Hrun) as (_ & _ & -> & _). }
  assert (∃ rest, errors (scrape w init).2 = fetch_errors w ++ rest ∧
                  Forall render_phase rest) as (rest & H1 & H2);
    [|by exists rest].
  destruct (scrape_final_state w) as [[-> _]|(secs & _ & _ & _ & _ & He')].
  - exists []. rewrite app_nil_r. split; [done|apply Forall_nil_2].
  - destruct (js_scrape_log w (_static_fetch w init).2) as (_ & _ & _ & _ & news & Hn & Hf).
    exists (news ++ match (_js_scrape w (_static_fetch w init).2).1 with
                    | Raise e => [render_failed e]
                    | Ok _ => []
                    end).
    split; [|apply Forall_app; split; [done|]].
    + rewrite He', Hn, He. by rewrite <- !app_assoc.
    + destruct (_js_scrape w _).1; [apply Forall_nil_2|].
      apply Forall_cons_2; [by left|apply Forall_nil_2].
Qed.

(** Without Playwright, [_js_scrape] returns [None] and appends one record;
    it issues no browser operation and leaves log and visited set alone. *)
Lemma js_scrape_without_playwright s :
  PLAYWRIGHT_AVAILABLE w = false →
  (_js_scrape w s).1 = Ok None ∧
  errors (_js_scrape w s).2 = errors s ++ [playwright_missing] ∧
  interactions (_js_scrape w s).2 = interactions s ∧
  visited_urls (_js_scrape w s).2 = visited_urls s ∧
  clock (_js_scrape w s).2 = clock s.
Proof. intros H. unfold _js_scrape. rewrite H. done. Qed.

(** The sections of an envelope, in full: those of the static pass if the
    scrape did not go to the render path; otherwise those of the render
    pass if it gave any, and those of the static pass if it gave none, also
    when it raised; the sentinel if all that is empty. *)
Theorem envelope_sections_by_path (env : Envelope) (st : Scraper) (secs : list Section) :
  scrape w init = (Ok env, st) →
  static_sections w = Ok secs →
  env_sections env =
    or_sentinel (url w)
      (if escalates w secs then
         match sections_of_js (_js_scrape w (_static_fetch w init).2).1 with
         | [] => secs
         | from_render => from_render
         end
       else secs).
Proof.
  intros Hrun Hs. rewrite scrape_run in Hrun.
  pose proof (scrape_sections_run w init) as Hsec. cbv zeta in Hsec.
  rewrite Hs in Hsec. rewrite Hsec in Hrun. clear Hsec.
  destruct (escalates w secs).
  - destruct (_js_scrape w _) as [[[r|]|e] s2]; simpl in *; injection Hrun as <- _; simpl;
      try done.
    by destruct (js_sections r).
  - by injection Hrun as <- _.
Qed.



(** A failed fetch without Playwright: the sentinel envelope, with the
    fetch record and the record of the missing driver. *)
Theorem offline_scrape_is_sentinel (e : string) :
  http_get w = Raise e →
  PLAYWRIGHT_AVAILABLE w = false →
  (scrape w init).1 =
    Ok {| env_url := url w; env_sections := [sentinel (url w)];
          env_interactions := {| clicks := []; scrolls := 0; pages := [] |};
          env_errors := [fetch_failed e; playwright_missing] |} ∧
  clock (scrape w init).2 = 0.
Proof.
  intros Hget Hpw. rewrite scrape_run.
  pose proof (scrape_sections_run w init) as Hsec. cbv zeta in Hsec.
  assert (static_sections w = Ok []) as Hs by (unfold static_sections; by rewrite Hget).
  assert (escalates w [] = true) as Hesc
    by (unfold escalates, static_html_truthy; by rewrite Hget).
  rewrite Hs, Hesc in Hsec.
  destruct (js_scrape_without_playwright (_static_fetch w init).2 Hpw)
    as (Hr & He & Hi & _ & Hc).
  destruct (_js_scrape w _) as [r s2]. simpl in *. subst r. rewrite Hsec. simpl.
  rewrite He, Hi, Hc, static_fetch_run, Hget. done.
Qed.

End ScrapeOutcomes.

Lemma envelope_sections_by_path_witness :
  ∃ env st secs,
    scrape welcome_world init = (Ok env, st) ∧
    static_sections welcome_world = Ok secs ∧
    escalates welcome_world secs = true ∧
    env_sections env =
      or_sentinel seed
        (if escalates welcome_world secs then
           match sections_of_js
                   (_js_scrape welcome_world (_static_fetch welcome_world init).2).1 with
           | [] => secs
           | from_render => from_render
           end
         else secs).
Proof.
  eassert (scrape welcome_world init = (Ok _, _)) as Hrun by (vm_compute; reflexivity).
  eassert (static_sections welcome_world = Ok _) as Hs by (vm_compute; reflexivity).
  eexists _, _, _. split; [exact Hrun|]. split; [exact Hs|].
  split; [vm_compute; reflexivity|].
  exact (envelope_sections_by_path welcome_world _ _ _ Hrun Hs).
Defined.



Lemma offline_scrape_is_sentinel_witness :
  http_get offline_world = Raise "Connection refused" ∧
  PLAYWRIGHT_AVAILABLE offline_world = false ∧
  clock (scrape offline_world init).2 = 0.
Proof.
  split; [reflexivity|]. split; [reflexivity|].
  exact (proj2 (offline_scrape_is_sentinel offline_world _ eq_refl eq_refl)).
Defined.

(** * Further properties of the extraction *)

(** ** Sections and regions *)

Lemma extract_regions_by_index urljoin source_url regions k ss :
  extract_regions urljoin source_url regions k = Ok ss →
  length ss = length regions ∧
  ∀ i r, regions !! i = Some r →
    ∃ s, ss !! i = Some s ∧
         _extract_section_from_element urljoin (Some r) source_url (k + i) = Ok (Some s).
Proof.
  revert k ss. induction regions as [|r rest IH]; intros k ss; simpl.
  - intros [= <-]. split; [done|]. intros i r. by rewrite lookup_nil.
  - destruct (_extract_section_from_element _ _ _ _) as [o|e] eqn:He; simpl; [|done].
    destruct (extract_section_inv _ _ _ _ _ He) as (_ & _ & s & -> & _).
    destruct (extract_regions _ _ rest _) as [ss'|e] eqn:Hr; simpl; [|done].
    intros [= <-]. destruct (IH _ _ Hr) as [Hlen Hix]. split; [simpl; by f_equal|].
    intros [|i] r'; simpl.
    + intros [= <-]. exists s. by rewrite Nat.add_0_r.
    + intros Hr'. destruct (Hix _ _ Hr') as (s' & Hs' & He').
      exists s'. split; [done|]. by rewrite Nat.add_succ_r.
Qed.

(** The sections follow the regions of the tier one by one, in order: the
    section at position [i] is the extraction of the region at position
    [i] with ordinal [i].  Two headings with one parent give that parent
    twice, hence two sections. *)
Theorem sections_follow_regions urljoin (source_url : string) (parser : Dom.Tag)
    (ss : list Section) :
  _extract_sections urljoin source_url parser = Ok ss →
  length ss = length (regions_of_tier parser (tier_of parser)) ∧
  ∀ i r, regions_of_tier parser (tier_of parser) !! i = Some r →
    ∃ s, ss !! i = Some s ∧
         _extract_section_from_element urljoin (Some r) source_url i = Ok (Some s).
Proof.
  rewrite extract_sections_by_tier. intros H.
  by apply extract_regions_by_index in H.
Qed.

Lemma sections_follow_regions_witness :
  ∃ ss,
    _extract_sections urljoin_rooted seed twin_headings_page = Ok ss ∧
    regions_of_tier twin_headings_page (tier_of twin_headings_page) =
      [Dom.mkTag "div" [] [elem "h2" [] [txt "First"]; elem "h3" [] [txt "Second"]];
       Dom.mkTag "div" [] [elem "h2" [] [txt "First"]; elem "h3" [] [txt "Second"]]] ∧
    length ss = 2 ∧
    map sec_id ss = ["unknown-0"; "unknown-1"].
Proof.
  eassert (_extract_sections urljoin_rooted seed twin_headings_page = Ok _) as Hrun
    by (vm_compute; reflexivity).
  eexists. split; [exact Hrun|]. split; [vm_compute; reflexivity|].
  split; [|vm_compute; reflexivity].
  exact (proj1 (sections_follow_regions _ _ _ _ Hrun)).
Defined.

Lemma select_nil_parents names t :
  Dom.select names t = [] → Dom.select_parents names t = [].
Proof.
  unfold Dom.select, Dom.select_parents.
  destruct (filter _ _); [done|]. simpl. done.
Qed.

(** A document without landmark elements and without h1, h2 or h3 gives
    one section, that of its body, numbered 0; without a body it gives
    none. *)
Theorem plain_document_gives_body_section urljoin (source_url : string)
    (parser : Dom.Tag) :
  Dom.select landmark_names parser = [] →
  Dom.select heading_names parser = [] →
  match Dom.select_one ["body"] parser with
  | Some body =>
      ∀ ss, _extract_sections urljoin source_url parser = Ok ss →
        ∃ s, ss = [s] ∧
             _extract_section_from_element urljoin (Some body) source_url 0 = Ok (Some s) ∧
             sec_id s = section_type_of body +:+ "-0"
  | None => _extract_sections urljoin source_url parser = Ok []
  end.
Proof.
  intros Hl Hh. apply select_nil_parents in Hh.
  rewrite extract_sections_by_tier. unfold tier_of. rewrite Hl.
  cbn [regions_of_tier]. rewrite Hh. cbn [kept List.filter regions_of_tier].
  destruct (Dom.select_one ["body"] parser) as [body|]; [|done].
  intros ss Hss. cbn [option_list] in Hss.
  destruct (extract_regions_by_index _ _ _ _ _ Hss) as [Hlen Hix].
  destruct (Hix 0 body eq_refl) as (s & Hs & He).
  destruct ss as [|s0 [|s1 l]]; try done.
  injection Hs as ->. exists s. split; [done|]. split; [done|].
  by destruct (extract_section_inv _ _ _ _ _ He) as (_ & _ & s' & [= <-] & _ & _ & -> & _).
Qed.

Lemma plain_document_witness :
  Dom.select landmark_names plain_page = [] ∧
  Dom.select heading_names plain_page = [] ∧
  ∃ ss s, _extract_sections urljoin_rooted seed plain_page = Ok ss ∧
          ss = [s] ∧ sec_id s = "unknown-0".
Proof.
  assert (Dom.select landmark_names plain_page = []) as Hl by reflexivity.
  assert (Dom.select heading_names plain_page = []) as Hh by reflexivity.
  split; [exact Hl|]. split; [exact Hh|].
  eassert (_extract_sections urljoin_rooted seed plain_page = Ok _) as Hrun
    by (vm_compute; reflexivity).
  pose proof (plain_document_gives_body_section urljoin_rooted seed plain_page Hl Hh) as H.
  destruct (H _ Hrun) as (s & Hs & _ & Hid).
  eexists _, s. split; [exact Hrun|]. split; [exact Hs|]. exact Hid.
Defined.

(** ** Links and images *)

Lemma extract_links_resolved urljoin source_url anchors all acc links :
  extract_links urljoin source_url anchors acc = Ok links →
  (∀ a, In a anchors → In a all) →
  let resolved l :=
    Py.truthy (link_text l) = true ∧
    ∃ a href, In a all ∧ Dom.get "href" a = Some href ∧ Py.truthy href = true ∧
              urljoin source_url href = Ok (link_href l) ∧
              link_text l = Py.take 100 (Dom.get_text_strip a) in
  Forall resolved acc → Forall resolved links.
Proof.
  cbv zeta. revert acc. induction anchors as [|a rest IH]; intros acc; simpl.
  - by intros [= <-].
  - intros Hrun Hall.
    assert (∀ a0, In a0 rest → In a0 all) as Hrest by (intros; apply Hall; by right).
    destruct (Dom.get "href" a) as [href|] eqn:Hget; [|by apply IH].
    destruct (Py.truthy href) eqn:Hhref; [|by apply IH].
    destruct (urljoin source_url href) as [absolute_url|e] eqn:Hj; simpl in Hrun; [|done].
    destruct (Py.truthy (Dom.get_text_strip a)) eqn:Htext; [|by apply IH].
    intros Hacc. apply (IH _ Hrun Hrest). apply Forall_app. split; [done|].
    apply Forall_cons_2; [|apply Forall_nil_2]. simpl. split.
    + destruct (Dom.get_text_strip a); done.
    + exists a, href. split_and!; try done. apply Hall. by left.
Qed.

Lemma extract_images_resolved urljoin source_url imgs all acc images :
  extract_images urljoin source_url imgs acc = Ok images →
  (∀ img, In img imgs → In img all) →
  let resolved im :=
    ∃ img src, In img all ∧ image_source img = Some src ∧ Py.truthy src = true ∧
               urljoin source_url src = Ok (image_src im) ∧
               image_alt im = default "" (Dom.get "alt" img) in
  Forall resolved acc → Forall resolved images.
Proof.
  cbv zeta. revert acc. induction imgs as [|img rest IH]; intros acc; simpl.
  - by intros [= <-].
  - intros Hrun Hall.
    assert (∀ i0, In i0 rest → In i0 all) as Hrest by (intros; apply Hall; by right).
    destruct (image_source img) as [src|] eqn:Hsrc; [|by apply IH].
    destruct (Py.truthy src) eqn:Ht; [|by apply IH].
    destruct (urljoin source_url src) as [absolute_src|e] eqn:Hj; simpl in Hrun; [|done].
    intros Hacc. apply (IH _ Hrun Hrest). apply Forall_app. split; [done|].
    apply Forall_cons_2; [|apply Forall_nil_2]. simpl.
    exists img, src. split_and!; try done. apply Hall. by left.
Qed.

(** Every link of a section comes from an anchor of the element with a
    non-empty [href] and a non-empty text: its [href] is what [urljoin]
    made of that reference, its text the first 100 characters of the
    anchor's text.  Every image comes from an [img] with a non-empty
    [src], or else [data-src], resolved by [urljoin], with the [alt] of the
    image or the empty string. *)
Theorem links_and_images_resolved urljoin (element : Dom.Tag) (source_url : string)
    (section_id : nat) (s : Section) :
  _extract_section_from_element urljoin (Some element) source_url section_id = Ok (Some s) →
  Forall (λ l,
            Py.truthy (link_text l) = true ∧
            ∃ a href, In a (Dom.select ["a"] element) ∧
                      Dom.get "href" a = Some href ∧ Py.truthy href = true ∧
                      urljoin source_url href = Ok (link_href l) ∧
                      link_text l = Py.take 100 (Dom.get_text_strip a))
         (links (content s)) ∧
  Forall (λ im,
            ∃ img src, In img (Dom.select ["img"] element) ∧
                       image_source img = Some src ∧ Py.truthy src = true ∧
                       urljoin source_url src = Ok (image_src im) ∧
                       image_alt im = default "" (Dom.get "alt" img))
         (images (content s)).
Proof.
  intros Hrun.
  destruct (extract_section_inv _ _ _ _ _ Hrun)
    as (fl & fi & s' & [= <-] & Hl & Hi & _ & _ & _ & _ & Hcontent & _).
  rewrite Hcontent. simpl. split; apply Forall_take.
  - eapply (extract_links_resolved _ _ _ _ _ _ Hl); [done|apply Forall_nil_2].
  - eapply (extract_images_resolved _ _ _ _ _ _ Hi); [done|apply Forall_nil_2].
Qed.

Lemma links_and_images_witness :
  ∃ s,
    _extract_section_from_element urljoin_rooted (Some media_section) seed 0 = Ok (Some s) ∧
    links (content s) = [ {| link_text := "Docs"; link_href := seed +:+ "/docs" |} ] ∧
    images (content s) = [ {| image_src := seed +:+ "/a.png"; image_alt := "A" |};
                           {| image_src := seed +:+ "/b.png"; image_alt := "" |} ] ∧
    Forall (λ l, Py.truthy (link_text l) = true) (links (content s)).
Proof.
  eassert (_extract_section_from_element urljoin_rooted (Some media_section) seed 0
           = Ok (Some _)) as Hrun by (vm_compute; reflexivity).
  eexists. split; [exact Hrun|]. split; [reflexivity|]. split; [reflexivity|].
  eapply Forall_impl;
    [exact (proj1 (links_and_images_resolved _ _ _ _ _ Hrun))|].
  intros l [H _]. exact H.
Defined.

(** ** Types, labels and source URLs *)

Lemma section_type_in_enumeration (element : Dom.Tag) :
  In (section_type_of element) section_types.
Proof.
  rewrite section_type_of_unfold. unfold type_of_class, type_of_tag, section_types.
  repeat match goal with
         | |- context [if ?b then _ else _] => destruct b
         end; simpl; tauto.
Qed.

Lemma truthy_take n s : Py.truthy s = true → Py.truthy (Py.take (S n) s) = true.
Proof. by destruct s. Qed.

Lemma truthy_of_starts s : starts_with_word s = true → Py.truthy s = true.
Proof. by destruct s. Qed.

Lemma lstrip_starts s : Py.truthy (Py.lstrip s) = true → starts_with_word (Py.lstrip s) = true.
Proof.
  induction s as [|c s IH]; simpl; [done|].
  destruct (Py.is_space c) eqn:Hc; [done|]. simpl. by rewrite Hc.
Qed.

Lemma rstrip_keeps_start s :
  starts_with_word s = true → starts_with_word (Py.rstrip s) = true.
Proof.
  destruct s as [|c s]; simpl; [done|]. intros Hc.
  destruct (Py.rstrip s); simpl; [|done].
  apply negb_true_iff in Hc. by rewrite Hc; simpl; rewrite Hc.
Qed.

Lemma strip_starts s : Py.truthy (Py.strip s) = true → starts_with_word (Py.strip s) = true.
Proof.
  unfold Py.strip. intros H. apply rstrip_keeps_start, lstrip_starts.
  destruct (Py.lstrip s); done.
Qed.

Lemma join_starts sep p rest :
  starts_with_word p = true → starts_with_word (Py.join sep (p :: rest)) = true.
Proof. destruct p as [|c p]; [done|]. intros H. by destruct rest. Qed.

Lemma get_text_strip_starts t :
  Py.truthy (Dom.get_text_strip t) = true → starts_with_word (Dom.get_text_strip t) = true.
Proof.
  unfold Dom.get_text_strip.
  induction (Dom.strings t) as [|x xs IH]; [done|].
  rewrite fmap_cons, filter_cons.
  destruct (decide (Py.truthy (Py.strip x))) as [Hx|Hx]; [|exact IH].
  intros _. apply join_starts, strip_starts. by apply Is_true_true.
Qed.

Lemma collect_texts_all (P : string → Prop) keep tags acc :
  (∀ parts t, keep parts (Dom.get_text_strip t) = true → P (Dom.get_text_strip t)) →
  Forall P acc → Forall P (collect_texts keep tags acc).
Proof.
  intros Hkeep. unfold collect_texts. revert acc.
  induction tags as [|t tags IH]; intros acc Hacc; simpl; [done|].
  apply IH. destruct (keep acc (Dom.get_text_strip t)) eqn:Hk; [|done].
  apply Forall_app. split; [done|]. apply Forall_cons_2; [by eapply Hkeep|apply Forall_nil_2].
Qed.

Lemma headings_truthy element :
  Forall (λ h, Py.truthy h = true) (extract_headings element).
Proof.
  apply collect_texts_all; [|apply Forall_nil_2]. by intros _ t H.
Qed.

Lemma text_parts_start element :
  Forall (λ p, starts_with_word p = true) (extract_text_parts element).
Proof.
  unfold extract_text_parts.
  assert (Forall (λ p, starts_with_word p = true)
            (collect_texts (λ _ text, Py.truthy text && (10 <? Py.len text))
               (Dom.select ["p"] element) [])) as Hp.
  { apply collect_texts_all; [|apply Forall_nil_2].
    intros _ t H. apply andb_true_iff in H as [H _]. by apply get_text_strip_starts. }
  destruct (_ <? 2); [|done].
  apply collect_texts_all; [|done].
  intros parts t H. apply andb_true_iff in H as [H _]. apply andb_true_iff in H as [H _].
  by apply get_text_strip_starts.
Qed.

Lemma split_from_word cur s :
  cur ≠ [] → ∃ word rest, Py.split_from cur s = word :: rest ∧ Py.truthy word = true.
Proof.
  revert cur. induction s as [|c s IH]; intros cur Hcur; simpl.
  - destruct cur as [|a cur]; [done|]. eexists _, _. split; [done|].
    simpl. destruct (rev cur ++ [a]) eqn:Hr; [by destruct (rev cur)|done].
  - destruct (Py.is_space c).
    + destruct cur as [|a cur]; [done|]. eexists _, _. split; [done|].
      simpl. destruct (rev cur ++ [a]) eqn:Hr; [by destruct (rev cur)|done].
    + by apply IH.
Qed.

Lemma split_of_starting s :
  starts_with_word s = true →
  ∃ word rest, Py.split s = word :: rest ∧ Py.truthy word = true.
Proof.
  destruct s as [|c s]; [done|]. simpl. intros Hc. apply negb_true_iff in Hc.
  unfold Py.split. simpl. rewrite Hc. by apply split_from_word.
Qed.

Lemma join_truthy sep p rest : Py.truthy p = true → Py.truthy (Py.join sep (p :: rest)) = true.
Proof. destruct p as [|c p]; [done|]. intros _. by destruct rest. Qed.

Lemma make_label_truthy element :
  Py.truthy (make_label (extract_headings element)
               (Py.join " " (take 10 (extract_text_parts element)))) = true.
Proof.
  unfold make_label.
  destruct (extract_headings element) as [|h hs] eqn:Hh.
  - destruct (Py.truthy (Py.join " " _)) eqn:Ht; [|done].
    pose proof (text_parts_start element) as Hparts.
    destruct (extract_text_parts element) as [|p ps]; [done|].
    change (take 10 (p :: ps)) with (p :: take 9 ps) in *.
    apply Forall_cons_1 in Hparts as [Hp _].
    destruct (split_of_starting (Py.join " " (p :: take 9 ps))) as (word & rest & -> & Hw);
      [by apply join_starts|].
    change (take 7 (word :: rest)) with (word :: take 6 rest). by apply join_truthy.
  - pose proof (headings_truthy element) as H. rewrite Hh in H.
    apply Forall_cons_1 in H as [H _]. by apply truthy_take.
Qed.

(** What holds of every section that [_extract_section_from_element]
    returns. *)
Lemma extracted_section_well_formed urljoin source_url s :
  extracted_from urljoin source_url s →
  In (sec_type s) section_types ∧ Py.truthy (label s) = true ∧ sourceUrl s = source_url.
Proof.
  intros (element & i & Hrun).
  destruct (extract_section_inv _ _ _ _ _ Hrun)
    as (_ & _ & s' & [= <-] & _ & _ & _ & Hty & Hlabel & Hurl & _).
  rewrite Hty, Hlabel, Hurl. split_and!; [apply section_type_in_enumeration| |done].
  apply truthy_take, make_label_truthy.
Qed.

Lemma extract_regions_provenance urljoin source_url regions k ss :
  extract_regions urljoin source_url regions k = Ok ss →
  Forall (extracted_from urljoin source_url) ss.
Proof.
  intros H. destruct (extract_regions_by_index _ _ _ _ _ H) as [Hlen Hix].
  apply Forall_lookup. intros i s Hs.
  destruct (regions !! i) as [r|] eqn:Hr.
  - destruct (Hix _ _ Hr) as (s' & Hs' & He). rewrite Hs in Hs'. injection Hs' as <-.
    by exists r, (k + i).
  - apply lookup_ge_None in Hr. apply lookup_lt_Some in Hs. lia.
Qed.

(** Every section of an envelope has a type of the enumeration, a label
    that is not empty and the URL of the scrape as its source. *)
Theorem envelope_sections_well_formed (w : World) (env : Envelope) (st : Scraper) :
  scrape w init = (Ok env, st) →
  Forall (λ s, In (sec_type s) section_types ∧
               Py.truthy (label s) = true ∧
               sourceUrl s = env_url env)
         (env_sections env).
Proof.
  intros Hrun.
  destruct (envelope_sections w env st Hrun) as (-> & _ & _ & secs & working & Hs & Hw & ->).
  assert (Forall (extracted_from (urljoin w) (url w)) working) as Hfrom.
  { destruct Hw as [->| ->].
    - unfold static_sections in Hs.
      destruct (http_get w) as [html|e]; [|injection Hs as <-; apply Forall_nil_2].
      destruct (Py.truthy html); [|injection Hs as <-; apply Forall_nil_2].
      destruct (parse_html w html) as [parser|e]; simpl in Hs; [|done].
      rewrite extract_sections_by_tier in Hs. by apply extract_regions_provenance in Hs.
    - destruct (_js_scrape w _) as [[[r|]|e] s2] eqn:Hjs; simpl; try apply Forall_nil_2.
      destruct (js_scrape_result _ _ _ _ Hjs) as (_ & _ & parser & Hp).
      rewrite extract_sections_by_tier in Hp. by apply extract_regions_provenance in Hp. }
  destruct working as [|s l].
  - apply Forall_cons_2; [|apply Forall_nil_2]. simpl. unfold section_types. tauto.
  - eapply Forall_impl; [exact Hfrom|]. intros s0. apply extracted_section_well_formed.
Qed.

Lemma envelope_sections_well_formed_witness :
  ∃ env st,
    scrape busy_world init = (Ok env, st) ∧
    Forall (λ s, In (sec_type s) section_types ∧
                 Py.truthy (label s) = true ∧
                 sourceUrl s = env_url env)
           (env_sections env).
Proof.
  eassert (scrape busy_world init = (Ok _, _)) as Hrun by (vm_compute; reflexivity).
  eexists _, _. split; [exact Hrun|].
  exact (envelope_sections_well_formed busy_world _ _ Hrun).
Defined.

(** * Further properties of the render path *)

(** ** Steps that keep a predicate *)

Lemma bind_run {A B} (m : M A) (k : A → M B) s :
  (m ≫= k) s = match m s with
               | (Ok a, s1) => k a s1
               | (Raise e, s1) => (Raise e, s1)
               end.
Proof. reflexivity. Qed.

Lemma preserves_ret {A} I (x : A) : preserves I (mret x : M A).
Proof. by intros s. Qed.

Lemma preserves_bind {A B} I (m : M A) (k : A → M B) :
  preserves I m → (∀ x, preserves I (k x)) → preserves I (m ≫= k).
Proof.
  intros Hm Hk s Hs. rewrite bind_run. specialize (Hm s Hs).
  destruct (m s) as [[x|e] s1]; [by apply Hk|done].
Qed.

Lemma preserves_try_except {A} I (m : M A) (h : string → M A) :
  preserves I m → (∀ e, preserves I (h e)) → preserves I (try_except m h).
Proof.
  intros Hm Hh s Hs. unfold try_except. specialize (Hm s Hs).
  destruct (m s) as [[x|e] s1]; [done|by apply Hh].
Qed.

Lemma preserves_attempt {A} I (m : M A) : preserves I m → preserves I (attempt m).
Proof.
  intros Hm. apply preserves_try_except.
  - apply preserves_bind; [done|]. intros x. apply preserves_ret.
  - intros e. apply preserves_ret.
Qed.

Lemma preserves_first_success I body selectors :
  (∀ sel, preserves I (body sel)) → preserves I (first_success body selectors).
Proof.
  intros Hbody. induction selectors as [|sel rest IH]; cbn [first_success].
  - apply preserves_ret.
  - apply preserves_bind; [by apply preserves_attempt|].
    intros [[|]|]; [apply preserves_ret|exact IH..].
Qed.

(** ** The scroll count *)

Section ScrollCount.

Variable w : World.

Lemma follow_next_link_keeps_scrolls n sel :
  preserves (λ s, scrolls_of s = n) (follow_next_link w sel).
Proof.
  intros s Hs. unfold follow_next_link, call, append_page, add_visited, set_interactions,
    get_state, lift, mbind, M_bind, mret, M_ret, scrolls_of in *; simpl.
  destruct (query_selector (browser w) sel (clock s)) as [[next_link|]|e]; simpl; [|done..].
  destruct (get_attribute (browser w) next_link "href" (S (clock s))) as [[href|]|e];
    simpl; [|done..].
  destruct (Py.truthy href); simpl; [|done].
  destruct (urljoin w (url w) href) as [next_url|e]; simpl; [|done].
  destruct (bool_decide _ && _); simpl; [|done].
  destruct (click (browser w) next_link (S (S (clock s)))) as [[]|e]; simpl; [|done].
  destruct (wait_for_selector (browser w) "body" (S (S (S (clock s))))) as [[]|e]; done.
Qed.

Lemma scroll_once_counts i s s1 :
  scroll_once w i s = (Ok tt, s1) → scrolls_of s1 = scrolls_of s + 1.
Proof.
  unfold scroll_once. intros H.
  apply bind_ok_inv in H as (z & sa & Ha & H).
  apply bind_ok_inv in H as ([] & sb & Hb & H).
  assert (scrolls_of sb = scrolls_of s + 1) as Hsb.
  { unfold call in Ha. injection Ha as _ <-.
    unfold increment_scrolls in Hb. rewrite bind_run in Hb. simpl in Hb.
    by injection Hb as <-. }
  assert (preserves (λ s, scrolls_of s = scrolls_of sb)
            (wait_for_timeout 2000 ≫= λ _,
               call (evaluate (browser w) scroll_height) ≫= λ current_height,
               wait_for_timeout 1000 ≫= λ _,
               call (evaluate (browser w) scroll_height) ≫= λ new_height,
               if (current_height =? new_height)%Z && (i =? 0)
               then first_success (follow_next_link w) next_links
               else mret tt)) as Hrest.
  { apply preserves_bind; [apply preserves_ret|intros _].
    apply preserves_bind; [by intros ?|intros h1].
    apply preserves_bind; [apply preserves_ret|intros _].
    apply preserves_bind; [by intros ?|intros h2].
    destruct (_ && _); [|apply preserves_ret].
    apply preserves_first_success, follow_next_link_keeps_scrolls. }
  specialize (Hrest sb eq_refl). rewrite H in Hrest. simpl in Hrest. lia.
Qed.

Lemma scroll_loop_counts range s s1 :
  scroll_loop w range s = (Ok tt, s1) → scrolls_of s1 = scrolls_of s + length range.
Proof.
  revert s. induction range as [|i rest IH]; intros s; cbn [scroll_loop].
  - intros [= <-]. simpl. lia.
  - intros H. apply bind_ok_inv in H as ([] & sa & Ha & H).
    apply scroll_once_counts in Ha. apply IH in H. simpl. lia.
Qed.

End ScrollCount.

(** The scrolls after the loop never run: a loop that returns has counted
    three scrolls more, and a loop that raised skips them; so the scroll
    step is its loop, and every scroll step that returns has scrolled to
    the bottom three times. *)
Theorem further_scrolling_never_runs (w : World) :
  (∀ s, scroll_body w s = scroll_loop w (seq 0 3) s) ∧
  (∀ s s1, scroll_body w s = (Ok tt, s1) →
           scrolls (interactions s1) = scrolls (interactions s) + 3).
Proof.
  assert (∀ s, scroll_body w s = scroll_loop w (seq 0 3) s) as Heq.
  { intros s. unfold scroll_body. rewrite bind_run.
    destruct (scroll_loop w (seq 0 3) s) as [[[]|e] s1] eqn:Hloop; [|done].
    apply scroll_loop_counts in Hloop. unfold scrolls_of in Hloop. simpl in Hloop.
    rewrite bind_run. simpl.
    destruct (scrolls (interactions s1) <? 3) eqn:Hlt.
    - apply Nat.ltb_lt in Hlt. lia.
    - by rewrite andb_false_r. }
  split; [done|]. intros s s1. rewrite Heq. intros H.
  by apply scroll_loop_counts in H.
Qed.

(** ** The pages of the log *)

Section PagesInOrder.

Variable w : World.

Lemma keep_call {A} (op : nat → result A) : preserves (pages_in_order (url w)) (call op).
Proof. by intros s. Qed.

Lemma keep_append_error record :
  preserves (pages_in_order (url w)) (append_error record).
Proof. by intros s. Qed.

Lemma keep_append_click sel : preserves (pages_in_order (url w)) (append_click sel).
Proof. by intros s. Qed.

Lemma keep_increment_scrolls : preserves (pages_in_order (url w)) increment_scrolls.
Proof. by intros s. Qed.

Lemma keep_follow_next_link sel :
  preserves (pages_in_order (url w)) (follow_next_link w sel).
Proof.
  intros s Hs. unfold follow_next_link, call, append_page, add_visited, set_interactions,
    get_state, lift, mbind, M_bind, mret, M_ret; simpl.
  destruct (query_selector (browser w) sel (clock s)) as [[next_link|]|e]; simpl; [|done..].
  destruct (get_attribute (browser w) next_link "href" (S (clock s))) as [[href|]|e];
    simpl; [|done..].
  destruct (Py.truthy href); simpl; [|done].
  destruct (urljoin w (url w) href) as [next_url|e]; simpl; [|done].
  destruct (bool_decide (next_url ∉ visited_urls s) && _) eqn:Hguard; simpl; [|done].
  destruct (click (browser w) next_link (S (S (clock s)))) as [[]|e]; simpl; [|done].
  destruct (wait_for_selector (browser w) "body" (S (S (S (clock s))))) as [[]|e];
    simpl; [|done].
  apply andb_true_iff in Hguard as [Hnew _]. apply bool_decide_eq_true in Hnew.
  destruct Hs as (Hnd & Hin & rest & Hrest). unfold pages_in_order. simpl.
  split_and!.
  - apply NoDup_app. split_and!; [done| |apply NoDup_singleton].
    intros u Hu Hu'. apply list_elem_of_singleton in Hu'. subst u.
    apply Hnew, Hin. by apply list_elem_of_In.
  - intros u Hu. apply in_app_or in Hu as [Hu|[<-|[]]]; set_solver.
  - exists (rest ++ [next_url]). by rewrite Hrest.
Qed.

Lemma keep_scroll_body : preserves (pages_in_order (url w)) (scroll_body w).
Proof.
  assert (∀ range, preserves (pages_in_order (url w)) (scroll_loop w range)) as Hloop.
  { induction range as [|i rest IH]; cbn [scroll_loop]; [apply preserves_ret|].
    apply preserves_bind; [|intros _; exact IH]. unfold scroll_once.
    repeat (apply preserves_bind;
            [first [apply keep_call|apply keep_increment_scrolls|apply preserves_ret]
            |intros ?]).
    destruct (_ && _); [|apply preserves_ret].
    apply preserves_first_success, keep_follow_next_link. }
  assert (∀ n, preserves (pages_in_order (url w)) (more_scrolling w n)) as Hmore.
  { induction n as [|n IH]; cbn [more_scrolling]; [apply preserves_ret|].
    repeat (apply preserves_bind;
            [first [apply keep_call|apply keep_increment_scrolls|apply preserves_ret]
            |intros ?]).
    exact IH. }
  unfold scroll_body. apply preserves_bind; [apply Hloop|intros _].
  apply preserves_bind; [by intros s|intros s']. destruct (_ && _); [apply Hmore|].
  apply preserves_ret.
Qed.

Lemma keep_handle_interactions :
  preserves (pages_in_order (url w)) (_handle_interactions w).
Proof.
  apply preserves_try_except; [|intros e; apply keep_append_error].
  unfold interactions_body. apply preserves_bind; [apply keep_call|intros tabs].
  apply preserves_bind.
  - destruct tabs as [|tab tabs]; [apply preserves_ret|].
    apply preserves_bind; [|intros ?; apply preserves_ret].
    apply preserves_attempt. unfold click_first_tab.
    repeat (apply preserves_bind;
            [first [apply keep_call|apply keep_append_click|apply preserves_ret]
            |intros ?]).
    apply preserves_ret.
  - intros _. apply preserves_first_success. intros sel. unfold click_load_more.
    apply preserves_bind; [apply keep_call|intros [button|]]; [|apply preserves_ret].
    repeat (apply preserves_bind;
            [first [apply keep_call|apply keep_append_click|apply preserves_ret]
            |intros ?]).
    apply preserves_ret.
Qed.

Lemma keep_handle_scroll :
  preserves (pages_in_order (url w)) (_handle_scroll_and_pagination w).
Proof.
  apply preserves_try_except; [apply keep_scroll_body|intros e; apply keep_append_error].
Qed.

Lemma hoare_bind {A B} (P R Q : Scraper → Prop) (m : M A) (k : A → M B) :
  hoare P m R → (∀ s, R s → Q s) → (∀ x, hoare R (k x) Q) → hoare P (m ≫= k) Q.
Proof.
  intros Hm HRQ Hk s Hs. rewrite bind_run. specialize (Hm s Hs).
  destruct (m s) as [[x|e] s1]; [by apply Hk|by apply HRQ].
Qed.

Lemma hoare_try_except {A} (P R Q : Scraper → Prop) (m : M A) (h : string → M A) :
  hoare P m R → (∀ s, R s → Q s) → (∀ e, hoare R (h e) Q) → hoare P (try_except m h) Q.
Proof.
  intros Hm HRQ Hh s Hs. unfold try_except. specialize (Hm s Hs).
  destruct (m s) as [[x|e] s1]; [by apply HRQ|by apply Hh].
Qed.

Lemma js_body_pages : hoare no_page (js_body w) (none_or_in_order (url w)).
Proof.
  unfold js_body.
  apply hoare_bind with (R := no_page); [by intros s|by left|intros _].
  apply hoare_bind with (R := λ s, no_page s ∧ url w ∈ visited_urls s);
    [|intros s [H _]; by left|intros _].
  { intros s Hs. split; [done|]. simpl. set_solver. }
  apply hoare_bind with (R := pages_in_order (url w)); [|by right|intros _].
  { intros s [Hnil Hv]. unfold pages_in_order, no_page in *. simpl. rewrite Hnil. simpl.
    split_and!.
    - apply NoDup_singleton.
    - by intros u [<-|[]].
    - by exists []. }
  intros s Hs. right. revert s Hs.
  refine (_ : preserves (pages_in_order (url w)) _).
  apply preserves_bind; [apply preserves_ret|intros _].
  apply preserves_bind; [apply keep_handle_interactions|intros _].
  apply preserves_bind; [apply keep_handle_scroll|intros _].
  apply preserves_bind; [apply keep_call|intros html].
  apply preserves_bind; [by intros ?|intros parser].
  apply preserves_bind; [by intros ?|intros sections].
  apply preserves_bind; [apply keep_call|intros _].
  apply preserves_bind; [by intros ?|intros ?]. apply preserves_ret.
Qed.

(** From a log without pages, [_js_scrape] leaves the log without pages or
    with its pages in order. *)
Lemma js_scrape_pages : hoare no_page (_js_scrape w) (none_or_in_order (url w)).
Proof.
  unfold _js_scrape.
  apply hoare_bind with (R := no_page); [by intros s|by left|intros _].
  destruct (PLAYWRIGHT_AVAILABLE w); simpl.
  - apply hoare_bind with (R := no_page); [by intros s|by left|intros _].
    apply hoare_try_except with (R := none_or_in_order (url w));
      [apply js_body_pages|done|intros e].
    apply hoare_bind with (R := none_or_in_order (url w)); [|done|by intros _ s].
    intros s [Hs|Hs]; [by left|right]. by apply keep_call.
  - apply hoare_bind with (R := no_page); [by intros s|by left|by intros _ s; left].
Qed.

End PagesInOrder.

(** The pages of the log after a scrape: none, or the seed first and no
    page twice. *)
Theorem pages_start_with_seed_without_repeats (w : World) :
  let logged := pages (interactions (scrape w init).2) in
  NoDup logged ∧ (logged = [] ∨ ∃ rest, logged = url w :: rest).
Proof.
  cbv zeta. pose proof (static_fetch_state w init) as (Hi & _ & _). cbv zeta in Hi.
  destruct (scrape_final_state w) as [[-> _]|(secs & _ & _ & -> & _)].
  - rewrite Hi. simpl. split; [apply NoDup_nil_2|by left].
  - destruct (js_scrape_pages w (_static_fetch w init).2) as [Hnil|(Hnd & _ & Hrest)].
    + unfold no_page. by rewrite Hi.
    + unfold no_page in Hnil. rewrite Hnil. split; [apply NoDup_nil_2|by left].
    + split; [done|by right].
Qed.

(** * [_extract_meta] *)





(** Extracting twice from one document is extracting once: what a pass
    writes does not depend on what it wrote before. *)
Theorem extract_meta_idempotent (parser : Dom.Tag) (meta : Meta) :
  _extract_meta parser (_extract_meta parser meta) = _extract_meta parser meta.
Proof.
  unfold _extract_meta. simpl.
  destruct (Dom.select_one ["title"] parser),
    (select_one_with "meta" "property" "og:title" parser),
    (select_one_with "meta" "name" "description" parser),
    (select_one_with "meta" "property" "og:description" parser),
    (Dom.select_one ["html"] parser),
    (select_one_with "link" "rel" "canonical" parser); reflexivity.
Qed.

(** The language stays a code of one or two characters: a pass leaves a
    non-empty language non-empty, and one of at most two characters at most
    two characters long; an empty [lang] attribute gives "en". *)
Theorem extract_meta_language_code (parser : Dom.Tag) (meta : Meta) :
  1 ≤ Py.len (language meta) ≤ 2 →
  1 ≤ Py.len (language (_extract_meta parser meta)) ≤ 2.
Proof.
  intros Hm. unfold _extract_meta. simpl.
  destruct (Dom.select_one ["html"] parser) as [html_elem|]; [|done].
  destruct (Py.truthy _) eqn:Ht; [|simpl; lia].
  pose proof (len_take 2 (default "en" (Dom.get "lang" html_elem))) as Hle.
  split; [|done].
  destruct (default "en" (Dom.get "lang" html_elem)); [done|]. simpl. lia.
Qed.

Lemma extract_meta_language_witness :
  1 ≤ Py.len (language initial_meta) ≤ 2 ∧
  language (_extract_meta shop_page initial_meta) = "en" ∧
  1 ≤ Py.len (language (_extract_meta shop_page initial_meta)) ≤ 2.
Proof.
  assert (1 ≤ Py.len (language initial_meta) ≤ 2) as H by (simpl; lia).
  split; [exact H|]. split; [reflexivity|].
  exact (extract_meta_language_code shop_page initial_meta H).
Defined.

(** * The [/scrape] endpoint *)

(** The endpoint answers with the envelope exactly when the scheme is http
    or https and the scrape returns; every other request ends in status
    500.  The status 400 it raises for another scheme is raised inside its
    own [try] and taken by the handler for [Exception]: the answer is
    500, with the text of that exception in its detail. *)
Theorem endpoint_answers_200_or_500 urlparse_scheme str_of_http (w : World) :
  let answer := scrape_endpoint urlparse_scheme str_of_http w in
  (∀ result, answer = Returns result ↔
     ∃ scheme, urlparse_scheme (url w) = Ok scheme ∧
               (scheme = "http" ∨ scheme = "https") ∧
               (scrape w init).1 = Ok result) ∧
  (∀ e, answer = Raises e → ∃ detail, e = HTTPException 500 detail) ∧
  (∀ scheme, urlparse_scheme (url w) = Ok scheme →
     scheme ≠ "http" → scheme ≠ "https" →
     answer = Raises (HTTPException 500
                        ("Scraping failed: " +:+
                         str_of_http 400 "Only http and https URLs are supported"))).
Proof.
  cbv zeta. unfold scrape_endpoint, endpoint_body.
  assert (∀ scheme, Py.mem scheme ["http"; "https"] = true ↔
                    scheme = "http" ∨ scheme = "https") as Hmem.
  { intros scheme. unfold Py.mem. simpl. rewrite !orb_true_iff, !String.eqb_eq.
    intuition congruence. }
  destruct (urlparse_scheme (url w)) as [scheme|e].
  - destruct (Py.mem scheme ["http"; "https"]) eqn:Hs; simpl.
    + apply Hmem in Hs.
      destruct (scrape w init).1 as [result|e]; split_and!.
      * intros r. split; [intros [= <-]; eauto|]. by intros (? & [= <-] & _ & [= <-]).
      * done.
      * intros ? [= <-] ? ?. by destruct Hs.
      * intros r. split; [done|]. by intros (? & _ & _ & ?).
      * intros ? [= <-]. eauto.
      * intros ? [= <-] ? ?. by destruct Hs.
    + split_and!.
      * intros r. split; [done|]. intros (? & [= <-] & Hok & _).
        apply Hmem in Hok. congruence.
      * intros ? [= <-]. eauto.
      * by intros ? [= <-] _ _.
  - split_and!.
    + intros r. split; [done|]. by intros (? & ? & _).
    + intros ? [= <-]. eauto.
    + done.
Qed.
